(** * VocalText (Voice-to-Doc): the recording component and its transcript store

    A shallow embedding of the [App] React component.  Two revisions of
    the component are in the repository:

    - [src/App.tsx] (module [Base]): transcripts are stored without a word
      count and the result handler rebuilds the transcript from the
      delivered result list alone;
    - the revision with recording limits (module [Limits]):
      [MAX_WORD_COUNT], [MAX_RECORDING_HOURS], a [transcriptRef] that seeds
      the result handler, and a [wordCount] in every stored record.

    Handlers that are textually the same in both revisions are embedded
    once, at top level. *)

From Stdlib Require Import String Ascii DecimalString.
From Stdlib Require Import List ZArith NArith Bool Lia.
Import ListNotations.
Open Scope Z_scope.

(** ** JavaScript strings

    A JavaScript string is a sequence of UTF-16 code units. *)

Definition jschar := N.
Definition jsstring := list jschar.

(** String literals of the source, written as Rocq strings. *)
Definition js (s : string) : jsstring :=
  map N_of_ascii (list_ascii_of_string s).

(** ECMAScript [WhiteSpace] and [LineTerminator] code points: what
    [String.prototype.trim] strips and what the regular expression
    class [\s] matches. *)
Definition is_space (c : jschar) : bool :=
  ((9 <=? c) && (c <=? 13)
   || (c =? 32) || (c =? 160) || (c =? 5760)
   || ((8192 <=? c) && (c <=? 8202))
   || (c =? 8232) || (c =? 8233) || (c =? 8239) || (c =? 8287)
   || (c =? 12288) || (c =? 65279))%N.

Fixpoint trimStart (s : jsstring) : jsstring :=
  match s with
  | [] => []
  | c :: rest => if is_space c then trimStart rest else s
  end.

Fixpoint trimEnd (s : jsstring) : jsstring :=
  match s with
  | [] => []
  | c :: rest =>
      match trimEnd rest with
      | [] => if is_space c then [] else [c]
      | kept => c :: kept
      end
  end.

(** [s.trim()] *)
Definition trim (s : jsstring) : jsstring := trimEnd (trimStart s).

(** Truthiness of a string: non-empty. *)
Definition truthy (s : jsstring) : bool :=
  match s with [] => false | _ :: _ => true end.

(** [s.split(/\s+/)]: the pieces between maximal runs of white space.  A
    run at the start or at the end of [s] leaves an empty piece there, and
    the empty string splits into one empty piece.  [in_run] tells that
    the previous code unit was white space, [cur] is the piece being
    read. *)
Fixpoint split_go (in_run : bool) (cur : jsstring) (s : jsstring)
  : list jsstring :=
  match s with
  | [] => [cur]
  | c :: rest =>
      if is_space c
      then if in_run then split_go true cur rest
           else cur :: split_go true [] rest
      else split_go false (cur ++ [c]) rest
  end.

Definition split_spaces (s : jsstring) : list jsstring := split_go false [] s.

(** [s.trim().split(/\s+/).length], the word count of both the result
    handler and the stop handler of the revision with limits. *)
Definition countWords (s : jsstring) : Z :=
  Z.of_nat (List.length (split_spaces (trim s))).

(** [s.split(sep)[0]] for a one-character separator: the part of [s]
    before the first [sep], all of [s] when there is none. *)
Fixpoint before_first (sep : jschar) (s : jsstring) : jsstring :=
  match s with
  | [] => []
  | c :: rest => if (c =? sep)%N then [] else c :: before_first sep rest
  end.

(** Decimal digits. [digit n] is the character of the last digit of [n]. *)
Definition digit (n : Z) : jschar := (48 + Z.to_N (n mod 10))%N.

Definition pad2 (n : Z) : jsstring := [digit (n / 10); digit n].
Definition pad3 (n : Z) : jsstring := digit (n / 100) :: pad2 n.
Definition pad4 (n : Z) : jsstring := digit (n / 1000) :: pad3 n.
Definition pad6 (n : Z) : jsstring :=
  digit (n / 100000) :: digit (n / 10000) :: pad4 n.

Definition is_digit (c : jschar) : bool := ((48 <=? c) && (c <=? 57))%N.

(** The number a string of decimal digits denotes. *)
Definition digits_value (s : jsstring) : Z :=
  fold_left (fun acc c => 10 * acc + (Z.of_N c - 48)) s 0.

(** [n.toString()] for an integer [n]. *)
Definition toString (n : Z) : jsstring :=
  js (NilZero.string_of_int (Z.to_int n)).

(** ** Data model *)

(** [type RecordingStatus = 'idle' | 'recording' | 'transcribing' | 'complete' | 'error'] *)
Inductive RecordingStatus : Type :=
  idle | recording | transcribing | complete | error.

(** [type Language = 'en-US' | 'zh-CN'] *)
Inductive Language : Type := en_US | zh_CN.

Definition RecordingStatus_eqb (a b : RecordingStatus) : bool :=
  match a, b with
  | idle, idle | recording, recording | transcribing, transcribing
  | complete, complete | error, error => true
  | _, _ => false
  end.

Definition Language_eqb (a b : Language) : bool :=
  match a, b with
  | en_US, en_US | zh_CN, zh_CN => true
  | _, _ => false
  end.

(** [interface ErrorState { message: string; details?: string }] *)
Record ErrorState : Type := mkErrorState {
  message : jsstring;
  details : option jsstring
}.

(** [interface StoredTranscript].  [wordCount] is a field of the revision
    with limits only; a record written by [src/App.tsx] has none. *)
Record StoredTranscript : Type := mkStoredTranscript {
  id : jsstring;
  text : jsstring;
  language : Language;
  timestamp : Z;
  wordCount : option Z
}.

(** One entry of [event.results]: [isFinal] and the text of its first
    alternative, [event.results[i][0].transcript]. *)
Record Slot : Type := mkSlot {
  isFinal : bool;
  alternative0 : jsstring
}.

Definition ONE_DAY_MS : Z := 24 * 60 * 60 * 1000.
Definition MAX_WORD_COUNT : Z := 88888.
Definition MAX_RECORDING_HOURS : Z := 6.

(** The [useState] cells of the component as one render sees them.  A
    handler created during a render reads these values for as long as it
    lives; the setters write the component's pending state instead.
    [errorState] is the cell the source calls [error]. *)
Record Render : Type := mkRender {
  status : RecordingStatus;
  transcript : jsstring;
  errorState : option ErrorState;
  interimTranscript : jsstring;
  selectedLanguage : Language;
  storedTranscripts : list StoredTranscript;
  recordingStartTime : option Z
}.

(** Calls made on the module-wide [recognition] object, oldest first. *)
Inductive RecognitionCall : Type := call_start | call_stop.

(** The component and what it shares with the platform.

    - [state]: the [useState] cells after all setters so far;
    - [bound]: the render whose closures are installed as
      [recognition.onresult], [onerror] and [onend].  The effect that
      installs them has dependencies [[status, selectedLanguage]], so the
      closures are replaced only when one of these two changes;
    - [transcriptRef], [recognitionRef]: the [useRef] cells (the second
      one as "is not null");
    - [recognitionLang]: [recognition.lang];
    - [localStorage]: the value under [STORAGE_KEY], parsed; [None] when
      the key is absent;
    - [calls]: the calls made on [recognition]. *)
Record World : Type := mkWorld {
  state : Render;
  bound : Render;
  transcriptRef : jsstring;
  recognitionRef : bool;
  recognitionLang : Language;
  localStorage : option (list StoredTranscript);
  calls : list RecognitionCall
}.

(** *** Setters *)

Definition setStatus (v : RecordingStatus) (w : World) : World :=
  let s := state w in
  mkWorld (mkRender v (transcript s) (errorState s) (interimTranscript s)
             (selectedLanguage s) (storedTranscripts s) (recordingStartTime s))
    (bound w) (transcriptRef w) (recognitionRef w) (recognitionLang w)
    (localStorage w) (calls w).

Definition setTranscript (v : jsstring) (w : World) : World :=
  let s := state w in
  mkWorld (mkRender (status s) v (errorState s) (interimTranscript s)
             (selectedLanguage s) (storedTranscripts s) (recordingStartTime s))
    (bound w) (transcriptRef w) (recognitionRef w) (recognitionLang w)
    (localStorage w) (calls w).

Definition setError (v : option ErrorState) (w : World) : World :=
  let s := state w in
  mkWorld (mkRender (status s) (transcript s) v (interimTranscript s)
             (selectedLanguage s) (storedTranscripts s) (recordingStartTime s))
    (bound w) (transcriptRef w) (recognitionRef w) (recognitionLang w)
    (localStorage w) (calls w).

Definition setInterimTranscript (v : jsstring) (w : World) : World :=
  let s := state w in
  mkWorld (mkRender (status s) (transcript s) (errorState s) v
             (selectedLanguage s) (storedTranscripts s) (recordingStartTime s))
    (bound w) (transcriptRef w) (recognitionRef w) (recognitionLang w)
    (localStorage w) (calls w).

Definition setSelectedLanguage (v : Language) (w : World) : World :=
  let s := state w in
  mkWorld (mkRender (status s) (transcript s) (errorState s)
             (interimTranscript s) v (storedTranscripts s)
             (recordingStartTime s))
    (bound w) (transcriptRef w) (recognitionRef w) (recognitionLang w)
    (localStorage w) (calls w).

Definition setStoredTranscripts (v : list StoredTranscript) (w : World)
  : World :=
  let s := state w in
  mkWorld (mkRender (status s) (transcript s) (errorState s)
             (interimTranscript s) (selectedLanguage s) v
             (recordingStartTime s))
    (bound w) (transcriptRef w) (recognitionRef w) (recognitionLang w)
    (localStorage w) (calls w).

Definition setRecordingStartTime (v : option Z) (w : World) : World :=
  let s := state w in
  mkWorld (mkRender (status s) (transcript s) (errorState s)
             (interimTranscript s) (selectedLanguage s) (storedTranscripts s)
             v)
    (bound w) (transcriptRef w) (recognitionRef w) (recognitionLang w)
    (localStorage w) (calls w).

(** [transcriptRef.current = v] *)
Definition set_transcriptRef (v : jsstring) (w : World) : World :=
  mkWorld (state w) (bound w) v (recognitionRef w) (recognitionLang w)
    (localStorage w) (calls w).

(** [localStorage.setItem(STORAGE_KEY, JSON.stringify(v))].  The write is
    taken to succeed; a storage that refuses it (quota) is outside the
    model. *)
Definition setItem (v : list StoredTranscript) (w : World) : World :=
  mkWorld (state w) (bound w) (transcriptRef w) (recognitionRef w)
    (recognitionLang w) (Some v) (calls w).

(** [recognition.start()] and [recognition.stop()] *)
Definition recognition_call (c : RecognitionCall) (w : World) : World :=
  mkWorld (state w) (bound w) (transcriptRef w) (recognitionRef w)
    (recognitionLang w) (localStorage w) (calls w ++ [c]).

(** ** Handlers shared by both revisions

    A handler that reads [useState] cells takes the render [c] it was
    created in as an argument.  [Date.now()] is the argument [now]; a
    handler that reads the clock twice reads the same instant. *)

(** [loadAndCleanTranscripts], run on mount and every hour. *)
Definition loadAndCleanTranscripts (now : Z) (w : World) : World :=
  match localStorage w with
  | Some transcripts =>
      let validTranscripts :=
        filter (fun t => now - timestamp t <? ONE_DAY_MS) transcripts in
      let w1 :=
        if Nat.eqb (List.length validTranscripts) (List.length transcripts)
        then w
        else setItem validTranscripts w in
      setStoredTranscripts validTranscripts w1
  | None => w
  end.

(** [recognition.onerror]; [code] is [event.error]. *)
Definition onerror (code : jsstring) (w : World) : World :=
  let w1 :=
    setError
      (Some (mkErrorState (js "Recognition Error")
               (Some (js "Error: " ++ code ++ js ". Please try again."))))
      w in
  let w2 := setStatus error w1 in
  recognition_call call_stop w2.

(** [recognition.onend] *)
Definition onend (c : Render) (w : World) : World :=
  if RecordingStatus_eqb (status c) recording
  then recognition_call call_start w
  else if negb (RecordingStatus_eqb (status c) error)
       then setStatus complete w
       else w.

(** [handleDismissError] *)
Definition handleDismissError (w : World) : World :=
  setStatus idle (setError None w).

(** The fields of the current instant in UTC, as [toISOString] prints
    them ([isoMonth] counts from 1). *)
Record UTCDate : Type := mkUTCDate {
  isoYear : Z;
  isoMonth : Z;
  isoDay : Z;
  isoHours : Z;
  isoMinutes : Z;
  isoSeconds : Z;
  isoMilliseconds : Z
}.

(** [Date.prototype.toISOString]: [YYYY-MM-DDTHH:mm:ss.sssZ], the year
    with a sign and six digits outside 0..9999. *)
Definition toISOString (d : UTCDate) : jsstring :=
  (if (0 <=? isoYear d) && (isoYear d <=? 9999)
   then pad4 (isoYear d)
   else (if isoYear d <? 0 then js "-" else js "+")
          ++ pad6 (Z.abs (isoYear d)))
    ++ js "-" ++ pad2 (isoMonth d) ++ js "-" ++ pad2 (isoDay d)
    ++ js "T" ++ pad2 (isoHours d) ++ js ":" ++ pad2 (isoMinutes d)
    ++ js ":" ++ pad2 (isoSeconds d) ++ js "." ++ pad3 (isoMilliseconds d)
    ++ js "Z".

(** What [handleDownload] hands to the browser: the blob's parts and type
    and the [download] attribute of the link it clicks. *)
Record Download : Type := mkDownload {
  blobParts : list jsstring;
  blobType : jsstring;
  download : jsstring
}.

(** [handleDownload]; [today] is [new Date()]. *)
Definition handleDownload (today : UTCDate) (text : jsstring)
  (lang : Language) : Download :=
  let langCode := if Language_eqb lang zh_CN then js "cn" else js "en" in
  mkDownload [text] (js "text/plain")
    (js "transcript-" ++ langCode ++ js "-"
       ++ before_first (N_of_ascii "T") (toISOString today) ++ js ".txt").

(** ** Rendering

    The effect with dependencies [[status, selectedLanguage]] sets
    [recognition.lang], installs the three handlers as closures of the
    render [r] it runs in, and stores [recognition] in
    [recognitionRef]. *)
Definition installHandlers (r : Render) (w : World) : World :=
  mkWorld (state w) r (transcriptRef w) true (selectedLanguage r)
    (localStorage w) (calls w).

(** After a handler has run the component renders again.  When [status]
    or [selectedLanguage] differs from the render that installed the
    handlers, the effect's cleanup calls [recognition.stop()] and the
    effect runs again in the new render.  The render and its effects are
    taken to finish before the next event arrives.  ([SpeechRecognition]
    is defined: the module has already run [new SpeechRecognition()].) *)
Definition render (w : World) : World :=
  if RecordingStatus_eqb (status (state w)) (status (bound w))
     && Language_eqb (selectedLanguage (state w)) (selectedLanguage (bound w))
  then w
  else installHandlers (state w) (recognition_call call_stop w).

(** A handler attached to an element of the page is the one of the latest
    render; a handler of [recognition] is the installed one. *)
Definition fromPage (h : Render -> World -> World) (w : World) : World :=
  render (h (state w) w).

Definition fromRecognition (h : Render -> World -> World) (w : World)
  : World :=
  render (h (bound w) w).

(** The first render: every cell at its initial value. *)
Definition initialRender : Render :=
  mkRender idle [] None [] en_US [] None.

(** Mounting the component over a storage holding [stored]: the first
    effect loads and cleans the stored transcripts, the last one installs
    the handlers of the first render. *)
Definition mount (stored : option (list StoredTranscript)) (now : Z)
  : World :=
  installHandlers initialRender
    (loadAndCleanTranscripts now
       (mkWorld initialRender initialRender [] false en_US stored [])).

(** What reaches the component. *)
Inductive Event : Type :=
| ClickMic (now : Z) (startThrows : bool)
| ChangeLanguage (now : Z) (lang : Language)
| DismissError
| Result (now : Z) (results : list Slot)
| RecognitionError (code : jsstring)
| RecognitionEnd
| HourlyClean (now : Z).

(** The loop of [recognition.onresult] over [event.results], with the
    initial values of [interim] and [final] as arguments; returns
    [(interim, final)]. *)
Fixpoint scanResults (results : list Slot) (interim final : jsstring)
  : jsstring * jsstring :=
  match results with
  | [] => (interim, final)
  | r :: rest =>
      if isFinal r
      then scanResults rest interim (final ++ alternative0 r ++ js " ")
      else scanResults rest (interim ++ alternative0 r) final
  end.

(** ** [src/App.tsx] *)
Module Base.

(** [recognition.onresult]: [interim] and [final] both start empty. *)
Definition onresult (results : list Slot) (w : World) : World :=
  let '(interim, final) := scanResults results [] [] in
  setInterimTranscript interim (setTranscript final w).

(** [handleStartRecording]; [startThrows] tells that
    [recognition.start()] throws, which the handler catches. *)
Definition handleStartRecording (startThrows : bool) (w : World) : World :=
  let w1 := setTranscript [] w in
  let w2 := setInterimTranscript [] w1 in
  let w3 := setError None w2 in
  let w4 := setStatus recording w3 in
  if startThrows
  then
    setStatus error
      (setError
         (Some (mkErrorState (js "Recognition Start Error")
                  (Some (js "Failed to start speech recognition. Please try again."))))
         w4)
  else recognition_call call_start w4.

(** [handleStopRecording] *)
Definition handleStopRecording (now : Z) (c : Render) (w : World) : World :=
  if recognitionRef w
  then
    let w1 := recognition_call call_stop w in
    let w2 := setStatus complete w1 in
    if truthy (trim (transcript c))
    then
      let newTranscript :=
        mkStoredTranscript (toString now) (transcript c)
          (selectedLanguage c) now None in
      let updatedTranscripts := storedTranscripts c ++ [newTranscript] in
      setStoredTranscripts updatedTranscripts
        (setItem updatedTranscripts w2)
    else w2
  else w.

(** [handleLanguageChange]; [lang] is [e.target.value]. *)
Definition handleLanguageChange (now : Z) (lang : Language) (c : Render)
  (w : World) : World :=
  let w1 := setSelectedLanguage lang w in
  if RecordingStatus_eqb (status c) recording
  then handleStopRecording now c w1
  else w1.

(** One event.  The microphone button carries [handleStopRecording]
    while the render's status is [recording] and
    [handleStartRecording] otherwise.  (The language selector is
    disabled while recording; [ChangeLanguage] stands for the handler
    being called, whatever the status.) *)
Definition step (w : World) (e : Event) : World :=
  match e with
  | ClickMic now startThrows =>
      fromPage
        (fun c =>
           if RecordingStatus_eqb (status c) recording
           then handleStopRecording now c
           else handleStartRecording startThrows)
        w
  | ChangeLanguage now lang => fromPage (handleLanguageChange now lang) w
  | DismissError => fromPage (fun _ => handleDismissError) w
  | Result _ results => fromRecognition (fun _ => onresult results) w
  | RecognitionError code => fromRecognition (fun _ => onerror code) w
  | RecognitionEnd => fromRecognition onend w
  | HourlyClean now => render (loadAndCleanTranscripts now w)
  end.

Definition run (w : World) (es : list Event) : World := fold_left step es w.

End Base.

(** ** The revision with recording limits

    The one-second timer that enforces [MAX_RECORDING_HOURS] is not part
    of the model. *)
Module Limits.

(** [handleStartRecording] *)
Definition handleStartRecording (now : Z) (startThrows : bool) (w : World)
  : World :=
  let w1 := setTranscript [] w in
  let w2 := setInterimTranscript [] w1 in
  let w3 := setError None w2 in
  let w4 := set_transcriptRef [] w3 in
  let w5 := setRecordingStartTime (Some now) w4 in
  let w6 := setStatus recording w5 in
  if startThrows
  then
    setStatus error
      (setError
         (Some (mkErrorState (js "Recognition Start Error")
                  (Some (js "Failed to start speech recognition. Please try again."))))
         w6)
  else recognition_call call_start w6.

(** [handleStopRecording] *)
Definition handleStopRecording (now : Z) (c : Render) (w : World) : World :=
  if recognitionRef w
  then
    let w1 := recognition_call call_stop w in
    let w2 := setStatus complete w1 in
    let w3 := setRecordingStartTime None w2 in
    if truthy (trim (transcript c))
    then
      let wordCount := countWords (transcript c) in
      let newTranscript :=
        mkStoredTranscript (toString now) (transcript c)
          (selectedLanguage c) now (Some wordCount) in
      let updatedTranscripts := storedTranscripts c ++ [newTranscript] in
      setStoredTranscripts updatedTranscripts
        (setItem updatedTranscripts w3)
    else w3
  else w.

(** [recognition.onresult]: [final] starts from [transcriptRef.current].
    Over the limit the handler stops the recording, sets the error
    and returns before it stores [final] and [interim]. *)
Definition onresult (now : Z) (results : list Slot) (c : Render)
  (w : World) : World :=
  let '(interim, final) := scanResults results [] (transcriptRef w) in
  let wordCount := countWords final in
  if MAX_WORD_COUNT <? wordCount
  then
    setError
      (Some (mkErrorState (js "Maximum Word Count Reached")
               (Some (js "Recording stopped after reaching "
                        ++ toString MAX_WORD_COUNT ++ js " words."))))
      (handleStopRecording now c w)
  else
    setInterimTranscript interim
      (setTranscript final (set_transcriptRef final w)).

(** [handleLanguageChange] *)
Definition handleLanguageChange (now : Z) (lang : Language) (c : Render)
  (w : World) : World :=
  let w1 := setSelectedLanguage lang w in
  if RecordingStatus_eqb (status c) recording
  then handleStopRecording now c w1
  else w1.

Definition step (w : World) (e : Event) : World :=
  match e with
  | ClickMic now startThrows =>
      fromPage
        (fun c =>
           if RecordingStatus_eqb (status c) recording
           then handleStopRecording now c
           else handleStartRecording now startThrows)
        w
  | ChangeLanguage now lang => fromPage (handleLanguageChange now lang) w
  | DismissError => fromPage (fun _ => handleDismissError) w
  | Result now results => fromRecognition (onresult now results) w
  | RecognitionError code => fromRecognition (fun _ => onerror code) w
  | RecognitionEnd => fromRecognition onend w
  | HourlyClean now => render (loadAndCleanTranscripts now w)
  end.

Definition run (w : World) (es : list Event) : World := fold_left step es w.

End Limits.

(** ** What the page prints

    Both functions are called while rendering; [now] is [Date.now()].
    Quotients are taken on integers: [Math.floor (a / b)] is the floor
    quotient and [a % b] the remainder with the sign of [a]. *)

(** The [hours] and [minutes] of [getTimeRemaining]. *)
Definition timeRemaining (now timestamp : Z) : Z * Z :=
  let remaining := ONE_DAY_MS - (now - timestamp) in
  let hours := remaining / (60 * 60 * 1000) in
  let minutes := Z.rem remaining (60 * 60 * 1000) / (60 * 1000) in
  (hours, minutes).

(** [getTimeRemaining], printed beside every stored transcript. *)
Definition getTimeRemaining (now timestamp : Z) : jsstring :=
  let '(hours, minutes) := timeRemaining now timestamp in
  toString hours ++ js "h " ++ toString minutes ++ js "m".

(** [s.padStart(2, '0')] *)
Definition padStart2 (s : jsstring) : jsstring :=
  repeat 48%N (2 - List.length s) ++ s.

(** [getRecordingDuration] of the revision with limits; [c] is the render
    that prints it.  A start time of 0 is as good as none. *)
Definition getRecordingDuration (now : Z) (c : Render) : jsstring :=
  match recordingStartTime c with
  | None => []
  | Some startTime =>
      if startTime =? 0 then []
      else
        let duration := now - startTime in
        let hours := duration / (1000 * 60 * 60) in
        let minutes := Z.rem duration (1000 * 60 * 60) / (1000 * 60) in
        let seconds := Z.rem duration (1000 * 60) / 1000 in
        padStart2 (toString hours) ++ js ":" ++ padStart2 (toString minutes)
          ++ js ":" ++ padStart2 (toString seconds)
  end.

(** ** The duration timer of the revision with limits

    The effect with dependencies [[status, recordingStartTime]] sets a
    one-second interval when the render it runs in is recording and has
    a start time; the callback is a closure of that render.  Its cleanup
    clears the interval. *)
Module Timer.

(** The start time the interval's callback reads, [None] when the effect
    sets no interval in the render [c]. *)
Definition interval (c : Render) : option Z :=
  match recordingStartTime c with
  | Some startTime =>
      if RecordingStatus_eqb (status c) recording && negb (startTime =? 0)
      then Some startTime
      else None
  | None => None
  end.

(** The interval's callback.  [hours >= MAX_RECORDING_HOURS], with
    [hours] the quotient of [duration] by the milliseconds of an hour, is
    compared on the integers. *)
Definition onInterval (now : Z) (c : Render) (w : World) : World :=
  match interval c with
  | Some startTime =>
      let duration := now - startTime in
      if MAX_RECORDING_HOURS * (1000 * 60 * 60) <=? duration
      then
        setError
          (Some (mkErrorState (js "Maximum Recording Duration Reached")
                   (Some (js "Recording stopped after "
                            ++ toString MAX_RECORDING_HOURS ++ js " hours."))))
          (Limits.handleStopRecording now c w)
      else w
  | None => w
  end.

(** The component together with the render the timer effect last ran
    in. *)
Record Timed : Type := mkTimed {
  world : World;
  timerRender : Render
}.

Definition option_Z_eqb (a b : option Z) : bool :=
  match a, b with
  | Some x, Some y => x =? y
  | None, None => true
  | _, _ => false
  end.

(** After a render the timer effect runs again when [status] or
    [recordingStartTime] has changed since it last ran. *)
Definition settle (last : Render) (w : World) : Timed :=
  if RecordingStatus_eqb (status (state w)) (status last)
     && option_Z_eqb (recordingStartTime (state w)) (recordingStartTime last)
  then mkTimed w last
  else mkTimed w (state w).

Inductive TimedEvent : Type :=
| Other (e : Event)
| Tick (now : Z).

Definition step (t : Timed) (e : TimedEvent) : Timed :=
  match e with
  | Other e => settle (timerRender t) (Limits.step (world t) e)
  | Tick now =>
      settle (timerRender t)
        (render (onInterval now (timerRender t) (world t)))
  end.

Definition run (t : Timed) (es : list TimedEvent) : Timed :=
  fold_left step es t.

Definition mount (stored : option (list StoredTranscript)) (now : Z)
  : Timed :=
  mkTimed (mount stored now) initialRender.

End Timer.

(** ** The specification's words, for comparison *)

(** "All slots flagged final are concatenated (each suffixed with a
    single separating space)". *)
Definition joinFinal (results : list Slot) : jsstring :=
  concat (map (fun r => alternative0 r ++ js " ") (filter isFinal results)).

(** "All non-final slots are concatenated". *)
Definition joinInterim (results : list Slot) : jsstring :=
  concat (map alternative0 (filter (fun r => negb (isFinal r)) results)).

(** The expiry predicate: [now - createdAt >= retentionWindow]. *)
Definition expired (now : Z) (t : StoredTranscript) : Prop :=
  now - timestamp t >= ONE_DAY_MS.

(** A date [YYYY-MM-DD]: ten characters, digits around two hyphens. *)
Definition isIsoDate (s : jsstring) : bool :=
  match s with
  | [y1; y2; y3; y4; h1; m1; m2; h2; d1; d2] =>
      is_digit y1 && is_digit y2 && is_digit y3 && is_digit y4
      && (h1 =? 45)%N && is_digit m1 && is_digit m2
      && (h2 =? 45)%N && is_digit d1 && is_digit d2
  | _ => false
  end.

(** The words of a text, counted directly: the maximal runs of code units
    that are not white space.  [in_word] tells that the previous code
    unit belongs to a word. *)
Fixpoint wordRuns_go (in_word : bool) (s : jsstring) : nat :=
  match s with
  | [] => 0
  | c :: rest =>
      if is_space c then wordRuns_go false rest
      else (if in_word then 0 else 1) + wordRuns_go true rest
  end.

Definition wordRuns (s : jsstring) : nat := wordRuns_go false s.

(** A text of [n] words, for inputs at the word limit: "a a ... a ". *)
Definition manyWords (n : N) : jsstring :=
  concat (repeat (js "a ") (N.to_nat n)).

(** The installed handlers are those of a render with the current status
    and language. *)
Definition synced (w : World) : Prop :=
  status (bound w) = status (state w)
  /\ selectedLanguage (bound w) = selectedLanguage (state w).

(** What holds of the component after it is mounted, whatever reaches
    it: the installed handlers see the current status and language and
    were created, while recording, in a render with an empty final text;
    the recognizer is stored and listens in the language of that render;
    the status is not [transcribing]. *)
Definition steady (w : World) : Prop :=
  synced w
  /\ recognitionRef w = true
  /\ recognitionLang w = selectedLanguage (bound w)
  /\ status (state w) <> transcribing
  /\ (status (state w) = recording -> transcript (bound w) = []).

(** The same for the timer of the revision with limits: the render its
    effect last ran in has the current status and start time and, while
    recording, an empty final text; and [transcriptRef] holds the final
    text. *)
Definition timerSteady (t : Timer.Timed) : Prop :=
  steady (Timer.world t)
  /\ transcriptRef (Timer.world t) = transcript (state (Timer.world t))
  /\ status (Timer.timerRender t) = status (state (Timer.world t))
  /\ recordingStartTime (Timer.timerRender t)
     = recordingStartTime (state (Timer.world t))
  /\ (status (state (Timer.world t)) = recording ->
      transcript (Timer.timerRender t) = []).



(** Literals, word counts and printed numbers stay folded under [simpl]. *)
Arguments js : simpl never.
Arguments toString : simpl never.
Arguments countWords : simpl never.
Arguments trim : simpl never.

(** * Properties *)

(** Reads cells of records that are written out, and nothing else. *)
Ltac fields :=
  cbn [status transcript errorState interimTranscript selectedLanguage
       storedTranscripts recordingStartTime state bound transcriptRef
       recognitionRef recognitionLang localStorage calls
       id text language timestamp wordCount] in *.

(** Unfolds the writes of a handler and reads the cells. *)
Ltac writes :=
  unfold setStatus, setTranscript, setError, setInterimTranscript,
    setSelectedLanguage, setStoredTranscripts, setRecordingStartTime,
    set_transcriptRef, setItem, recognition_call in *;
  fields.

(** ** Rendering and the installed handlers *)

Lemma render_state (w : World) : state (render w) = state w.
Proof.
  unfold render.
  destruct (RecordingStatus_eqb _ _ && Language_eqb _ _); reflexivity.
Qed.

Lemma render_localStorage (w : World) :
  localStorage (render w) = localStorage w.
Proof.
  unfold render.
  destruct (RecordingStatus_eqb _ _ && Language_eqb _ _); reflexivity.
Qed.

Lemma render_transcriptRef (w : World) :
  transcriptRef (render w) = transcriptRef w.
Proof.
  unfold render.
  destruct (RecordingStatus_eqb _ _ && Language_eqb _ _); reflexivity.
Qed.

Lemma RecordingStatus_eqb_eq (a b : RecordingStatus) :
  RecordingStatus_eqb a b = true <-> a = b.
Proof. destruct a, b; simpl; split; congruence. Qed.

Lemma Language_eqb_eq (a b : Language) : Language_eqb a b = true <-> a = b.
Proof. destruct a, b; simpl; split; congruence. Qed.

Lemma render_synced (w : World) : synced (render w).
Proof.
  unfold render, synced.
  destruct (RecordingStatus_eqb _ _ && Language_eqb _ _) eqn:E; simpl.
  - apply andb_true_iff in E as [Hs Hl].
    apply RecordingStatus_eqb_eq in Hs. apply Language_eqb_eq in Hl.
    split; congruence.
  - split; reflexivity.
Qed.

Lemma render_idle (w : World) : synced w -> render w = w.
Proof.
  intros [Hs Hl]. unfold render.
  replace (RecordingStatus_eqb _ _) with true
    by (symmetry; apply RecordingStatus_eqb_eq; congruence).
  replace (Language_eqb _ _) with true
    by (symmetry; apply Language_eqb_eq; congruence).
  reflexivity.
Qed.

Lemma mount_synced stored now : synced (mount stored now).
Proof.
  unfold mount, loadAndCleanTranscripts, synced; simpl.
  destruct stored as [ts|]; simpl; [|split; reflexivity].
  destruct (Nat.eqb _ _); split; reflexivity.
Qed.

(** Every event leaves the component with handlers that see its current
    status and language, in both revisions. *)
Lemma Base_step_synced (w : World) (e : Event) : synced (Base.step w e).
Proof. destruct e; apply render_synced. Qed.

Lemma Limits_step_synced (w : World) (e : Event) : synced (Limits.step w e).
Proof. destruct e; apply render_synced. Qed.

Lemma Limits_run_synced (es : list Event) (w : World) :
  synced w -> synced (Limits.run w es).
Proof.
  unfold Limits.run. revert w.
  induction es as [|e es IH]; intros w Hw; simpl; [exact Hw|].
  apply IH, Limits_step_synced.
Qed.

Lemma Base_run_synced (es : list Event) (w : World) :
  synced w -> synced (Base.run w es).
Proof.
  unfold Base.run. revert w.
  induction es as [|e es IH]; intros w Hw; simpl; [exact Hw|].
  apply IH, Base_step_synced.
Qed.

(** ** The result loop *)

(** The loop appends to its two accumulators what the specification
    calls the joined final and the joined interim slots. *)
Lemma scanResults_join (results : list Slot) (interim final : jsstring) :
  scanResults results interim final
  = (interim ++ joinInterim results, final ++ joinFinal results).
Proof.
  revert interim final.
  induction results as [|r rest IH]; intros interim final.
  - unfold joinInterim, joinFinal; simpl. now rewrite !app_nil_r.
  - unfold joinInterim, joinFinal in *. simpl.
    destruct (isFinal r); simpl; rewrite IH.
    + now rewrite <- !app_assoc.
    + now rewrite <- !app_assoc.
Qed.

(** In [src/App.tsx] a delivery replaces both texts by what the
    delivered set alone gives. *)
Lemma Base_onresult_replaces (results : list Slot) (w : World) :
  transcript (state (Base.onresult results w)) = joinFinal results
  /\ interimTranscript (state (Base.onresult results w)) = joinInterim results.
Proof.
  unfold Base.onresult. rewrite scanResults_join. simpl. auto.
Qed.

(** In [src/App.tsx], after any sequence of events that ends in a
    delivery, the final text is the joined final slots of that last
    delivered set, and the interim text its joined other slots. *)
Lemma Base_finalText_latest_set (w : World) (earlier : list Event)
  (now : Z) (results : list Slot) :
  let w' := Base.run w (earlier ++ [Result now results]) in
  transcript (state w') = joinFinal results
  /\ interimTranscript (state w') = joinInterim results.
Proof.
  simpl. unfold Base.run. rewrite fold_left_app. simpl.
  unfold fromRecognition. rewrite render_state.
  apply Base_onresult_replaces.
Qed.

(** In [src/App.tsx], delivering a result set a second time changes
    nothing. *)
Lemma Base_onresult_idempotent (w : World) (now now' : Z)
  (results : list Slot) :
  Base.step (Base.step w (Result now results)) (Result now' results)
  = Base.step w (Result now results).
Proof.
  simpl. unfold fromRecognition.
  set (w1 := render (Base.onresult results w)).
  assert (Hs : synced w1) by apply render_synced.
  assert (Hst : state w1 = state (Base.onresult results w))
    by apply render_state.
  assert (Hon : Base.onresult results w1 = w1).
  { unfold Base.onresult in *. rewrite scanResults_join in *. simpl in *.
    destruct w1 as [s b tr rr rl ls cs]. simpl in *. subst s.
    unfold setInterimTranscript, setTranscript. simpl. reflexivity. }
  rewrite Hon. apply render_idle, Hs.
Qed.

(** ** Result deliveries in the revision with limits *)

(** What a delivery within the limit stores: the text committed so far
    followed by the joined final slots of the delivered set. *)
Lemma Limits_onresult_within_limit (now : Z) (results : list Slot)
  (c : Render) (w : World) :
  countWords (transcriptRef w ++ joinFinal results) <= MAX_WORD_COUNT ->
  Limits.onresult now results c w
  = setInterimTranscript (joinInterim results)
      (setTranscript (transcriptRef w ++ joinFinal results)
         (set_transcriptRef (transcriptRef w ++ joinFinal results) w)).
Proof.
  intros H. unfold Limits.onresult. rewrite scanResults_join. simpl.
  destruct (MAX_WORD_COUNT <? _) eqn:E; [apply Z.ltb_lt in E; lia|].
  reflexivity.
Qed.

(** What a delivery over the limit does: the stop handler of the
    installed render, then the error; the delivered texts are dropped. *)
Lemma Limits_onresult_over_limit (now : Z) (results : list Slot)
  (c : Render) (w : World) :
  MAX_WORD_COUNT < countWords (transcriptRef w ++ joinFinal results) ->
  Limits.onresult now results c w
  = setError
      (Some (mkErrorState (js "Maximum Word Count Reached")
               (Some (js "Recording stopped after reaching 88888 words."))))
      (Limits.handleStopRecording now c w).
Proof.
  intros H. unfold Limits.onresult. rewrite scanResults_join. simpl.
  destruct (MAX_WORD_COUNT <? _) eqn:E; [|apply Z.ltb_ge in E; lia].
  reflexivity.
Qed.

(** C1, on the revision with limits.  The recognizer replays its whole
    result list on every delivery.  After a start, the set [one] and then
    the set [one; two] are delivered: the final text is "one one two ",
    while the joined final slots of the last set are "one two ".  The
    handler starts [final] from [transcriptRef.current], which already
    holds the earlier delivery, and then appends every final slot of the
    set again. *)
Theorem C1_limits_final_text_accumulates :
  let one := mkSlot true (js "one") in
  let two := mkSlot true (js "two") in
  let w :=
    Limits.run (mount None 0)
      [ClickMic 1 false; Result 2 [one]; Result 3 [one; two]] in
  transcript (state w) = js "one one two "
  /\ joinFinal [one; two] = js "one two "
  /\ transcript (state w) <> joinFinal [one; two].
Proof.
  vm_compute. repeat split. discriminate.
Qed.

(** C3, on the revision with limits.  After a start, the set [hello] is
    delivered once and then once more: one delivery gives the final text
    "hello ", two give "hello hello ".  The interim text is the same
    after both. *)
Theorem C3_limits_redelivery_changes_final_text :
  let hello := mkSlot true (js "hello") in
  let w := Limits.run (mount None 0) [ClickMic 1 false] in
  let once := Limits.step w (Result 2 [hello]) in
  let twice := Limits.step once (Result 2 [hello]) in
  transcript (state once) = js "hello "
  /\ transcript (state twice) = js "hello hello "
  /\ transcript (state twice) <> transcript (state once)
  /\ interimTranscript (state twice) = interimTranscript (state once).
Proof.
  vm_compute. repeat split. discriminate.
Qed.

(** ** The word limit *)

Lemma Limits_handleStopRecording_texts (now : Z) (c : Render) (w : World) :
  let w' := Limits.handleStopRecording now c w in
  transcript (state w') = transcript (state w)
  /\ interimTranscript (state w') = interimTranscript (state w)
  /\ transcriptRef w' = transcriptRef w.
Proof.
  unfold Limits.handleStopRecording.
  destruct (recognitionRef w); [|auto].
  destruct (truthy _); simpl; auto.
Qed.

Lemma Limits_handleStopRecording_stops (now : Z) (c : Render) (w : World) :
  recognitionRef w = true ->
  let w' := Limits.handleStopRecording now c w in
  calls w' = calls w ++ [call_stop] /\ status (state w') = complete.
Proof.
  intros H. unfold Limits.handleStopRecording. rewrite H.
  destruct (truthy _); simpl; auto.
Qed.

(** C2, as the code has it.  [MAX_WORD_COUNT] is 88888.  A delivery whose
    resulting final text has 88889 words runs the stop handler once
    ([recognition.stop()] is called once, the status becomes [complete])
    and raises the "Maximum Word Count Reached" error; that delivery is
    not applied: final text, interim text and [transcriptRef] keep their
    values.  A delivery whose resulting final text has exactly 88888
    words stops nothing, raises nothing and is applied. *)
Theorem C2_word_ceiling (now : Z) (c : Render) (w : World)
  (over atLimit : list Slot) :
  recognitionRef w = true ->
  countWords (transcriptRef w ++ joinFinal over) = MAX_WORD_COUNT + 1 ->
  countWords (transcriptRef w ++ joinFinal atLimit) = MAX_WORD_COUNT ->
  let stopped := Limits.onresult now over c w in
  let applied := Limits.onresult now atLimit c w in
  (calls stopped = calls w ++ [call_stop]
   /\ status (state stopped) = complete
   /\ errorState (state stopped)
      = Some (mkErrorState (js "Maximum Word Count Reached")
                (Some (js "Recording stopped after reaching 88888 words.")))
   /\ transcript (state stopped) = transcript (state w)
   /\ interimTranscript (state stopped) = interimTranscript (state w)
   /\ transcriptRef stopped = transcriptRef w)
  /\ (calls applied = calls w
      /\ status (state applied) = status (state w)
      /\ errorState (state applied) = errorState (state w)
      /\ storedTranscripts (state applied) = storedTranscripts (state w)
      /\ localStorage applied = localStorage w
      /\ transcript (state applied) = transcriptRef w ++ joinFinal atLimit
      /\ interimTranscript (state applied) = joinInterim atLimit
      /\ transcriptRef applied = transcriptRef w ++ joinFinal atLimit).
Proof.
  intros Href Hover Hat stopped applied. subst stopped applied. split.
  - rewrite Limits_onresult_over_limit by lia.
    destruct (Limits_handleStopRecording_stops now c w Href) as [Hc Hs].
    destruct (Limits_handleStopRecording_texts now c w) as (Ht & Hi & Hr).
    simpl. repeat split; assumption.
  - rewrite Limits_onresult_within_limit by lia.
    simpl. repeat split; reflexivity.
Qed.

Lemma C2_word_ceiling_witness :
  let w := Limits.run (mount None 0) [ClickMic 1 false] in
  let over := [mkSlot true (manyWords 88889)] in
  let atLimit := [mkSlot true (manyWords 88888)] in
  status (state (Limits.onresult 2 over (bound w) w)) = complete
  /\ transcript (state (Limits.onresult 2 over (bound w) w))
     = transcript (state w)
  /\ status (state (Limits.onresult 2 atLimit (bound w) w))
     = status (state w)
  /\ transcript (state (Limits.onresult 2 atLimit (bound w) w))
     = transcriptRef w ++ joinFinal atLimit.
Proof.
  intros w over atLimit.
  assert (Href : recognitionRef w = true) by reflexivity.
  assert (Hover : countWords (transcriptRef w ++ joinFinal over)
                  = MAX_WORD_COUNT + 1) by (vm_compute; reflexivity).
  assert (Hat : countWords (transcriptRef w ++ joinFinal atLimit)
                = MAX_WORD_COUNT) by (vm_compute; reflexivity).
  destruct (C2_word_ceiling 2 (bound w) w over atLimit Href Hover Hat)
    as [(_ & Hs & _ & Ht & _) (_ & Hs' & _ & _ & _ & Ht' & _)].
  exact (conj Hs (conj Ht (conj Hs' Ht'))).
Defined.

(** C2 as stated fails.  After a start, one final slot of 88889 words is
    delivered: the resulting word count is [MAX_WORD_COUNT + 1], the
    recording is stopped, and the final text is still empty, not the
    delivered text; nothing has been stored. *)
Lemma C2_crossing_update_not_applied :
  let big := [mkSlot true (manyWords 88889)] in
  let w := Limits.run (mount None 0) [ClickMic 1 false] in
  let w' := Limits.step w (Result 2 big) in
  countWords (transcriptRef w ++ joinFinal big) = MAX_WORD_COUNT + 1
  /\ status (state w') = complete
  /\ transcript (state w') = []
  /\ transcript (state w') <> transcriptRef w ++ joinFinal big
  /\ storedTranscripts (state w') = []
  /\ localStorage w' = None.
Proof.
  intros big w w'.
  assert (Ht : transcript (state w') = []) by (vm_compute; reflexivity).
  split; [vm_compute; reflexivity|].
  split; [vm_compute; reflexivity|].
  split; [exact Ht|].
  split.
  - rewrite Ht. intros H. apply (f_equal truthy) in H.
    vm_compute in H. discriminate H.
  - split; vm_compute; reflexivity.
Qed.

(** The stop that the result handler forces reads the final text of the
    render that installed the handler, which is the render of the start.
    After a start, the set [one] is delivered and then a set that
    crosses the limit: the final text is "one " and the status
    [complete], and nothing has been stored. *)
Lemma Limits_forced_stop_reads_installed_render :
  let one := mkSlot true (js "one") in
  let big := mkSlot true (manyWords 88889) in
  let w :=
    Limits.run (mount None 0)
      [ClickMic 1 false; Result 2 [one]; Result 3 [one; big]] in
  transcript (state w) = js "one "
  /\ status (state w) = complete
  /\ storedTranscripts (state w) = []
  /\ localStorage w = None.
Proof.
  vm_compute. repeat split.
Qed.

(** ** Expiry of stored transcripts *)

Lemma filter_same_length {A : Type} (f : A -> bool) (l : list A) :
  List.length (filter f l) = List.length l -> filter f l = l.
Proof.
  induction l as [|a l IH]; simpl; [reflexivity|].
  destruct (f a); simpl; intros H.
  - f_equal. apply IH. congruence.
  - pose proof (filter_length_le f l). rewrite H in *. simpl in *. lia.
Qed.

(** What the clean-up leaves, in the component and in the storage: the
    stored records that pass the filter, in their order. *)
Lemma loadAndCleanTranscripts_keeps (now : Z) (w : World)
  (transcripts : list StoredTranscript) :
  localStorage w = Some transcripts ->
  let valid := filter (fun t => now - timestamp t <? ONE_DAY_MS) transcripts in
  storedTranscripts (state (loadAndCleanTranscripts now w)) = valid
  /\ localStorage (loadAndCleanTranscripts now w) = Some valid.
Proof.
  intros H valid. unfold loadAndCleanTranscripts. rewrite H. fold valid.
  destruct (Nat.eqb _ _) eqn:E; simpl.
  - split; [reflexivity|].
    apply Nat.eqb_eq in E. apply filter_same_length in E.
    fold valid in E. rewrite H. now rewrite E.
  - split; reflexivity.
Qed.

(** C4.  Over any stored collection and at any time [now], the clean-up
    keeps exactly the records that are not expired, where expired means
    [now - createdAt >= 24 hours]; the same list is what the storage then
    holds.  A record created 24 hours and 1 millisecond before [now] is
    absent from it, a stored record created 23 hours 59 minutes before
    [now] is present. *)
Theorem C4_expiry (now : Z) (w : World)
  (transcripts : list StoredTranscript) (old recent : StoredTranscript) :
  localStorage w = Some transcripts ->
  timestamp old = now - 24 * 60 * 60 * 1000 - 1 ->
  In recent transcripts ->
  timestamp recent = now - (23 * 60 + 59) * 60 * 1000 ->
  let w' := loadAndCleanTranscripts now w in
  ~ In old (storedTranscripts (state w'))
  /\ In recent (storedTranscripts (state w'))
  /\ localStorage w' = Some (storedTranscripts (state w'))
  /\ (forall t, In t (storedTranscripts (state w'))
                <-> In t transcripts /\ ~ expired now t).
Proof.
  intros Hls Hold Hin Hrecent w'. subst w'.
  destruct (loadAndCleanTranscripts_keeps now w transcripts Hls) as [Hs Hp].
  rewrite Hs, Hp.
  assert (Hiff : forall t,
             In t (filter (fun t => now - timestamp t <? ONE_DAY_MS) transcripts)
             <-> In t transcripts /\ ~ expired now t).
  { intros t. rewrite filter_In, Z.ltb_lt. unfold expired. intuition lia. }
  split; [|split; [|split]].
  - rewrite Hiff. unfold expired, ONE_DAY_MS. lia.
  - rewrite Hiff. unfold expired, ONE_DAY_MS. split; [assumption|lia].
  - reflexivity.
  - exact Hiff.
Qed.

Lemma C4_expiry_witness :
  let old := mkStoredTranscript (js "13599999") (js "old ") en_US 13599999 None in
  let recent := mkStoredTranscript (js "13660000") (js "new ") zh_CN 13660000 None in
  let w' := loadAndCleanTranscripts 100000000 (mount (Some [old; recent]) 0) in
  ~ In old (storedTranscripts (state w'))
  /\ In recent (storedTranscripts (state w'))
  /\ localStorage w' = Some (storedTranscripts (state w')).
Proof.
  intros old recent w'.
  destruct (C4_expiry 100000000 (mount (Some [old; recent]) 0)
              [old; recent] old recent)
    as (H1 & H2 & H3 & _).
  - reflexivity.
  - reflexivity.
  - right; left; reflexivity.
  - reflexivity.
  - exact (conj H1 (conj H2 H3)).
Defined.

(** ** Errors, stop and language change *)

(** C5.  In [src/App.tsx], a recognition error delivered in any state of
    the component adds no record: the stored transcripts of the
    component and the storage are as before, whatever the final text
    holds, and the status becomes [error].  An end callback that follows
    leaves all three as they are. *)
Theorem C5_error_does_not_persist (code : jsstring) (w : World) :
  let w' := Base.step w (RecognitionError code) in
  let w'' := Base.step w' RecognitionEnd in
  (storedTranscripts (state w') = storedTranscripts (state w)
   /\ localStorage w' = localStorage w
   /\ transcript (state w') = transcript (state w)
   /\ status (state w') = error)
  /\ (storedTranscripts (state w'') = storedTranscripts (state w)
      /\ localStorage w'' = localStorage w
      /\ status (state w'') = error).
Proof.
  intros w' w''.
  assert (H' : storedTranscripts (state w') = storedTranscripts (state w)
               /\ localStorage w' = localStorage w
               /\ transcript (state w') = transcript (state w)
               /\ status (state w') = error).
  { subst w'. simpl. unfold fromRecognition.
    rewrite render_state, render_localStorage. simpl. auto. }
  split; [exact H'|].
  destruct H' as (Hst & Hls & _ & Hs).
  assert (Hb : status (bound w') = error).
  { destruct (Base_step_synced w (RecognitionError code)) as [Hb _].
    fold w' in Hb. congruence. }
  subst w''. simpl. unfold fromRecognition, onend. rewrite Hb. simpl.
  rewrite render_state, render_localStorage. auto.
Qed.

(** A stop in the revision with limits, from the page: what it stores
    when the final text has something besides white space, and that it
    stores nothing otherwise. *)
Lemma Limits_stop_from_page (now : Z) (w : World) :
  recognitionRef w = true ->
  let w' := fromPage (Limits.handleStopRecording now) w in
  status (state w') = complete
  /\ (truthy (trim (transcript (state w))) = true ->
      let r := mkStoredTranscript (toString now) (transcript (state w))
                 (selectedLanguage (state w)) now
                 (Some (countWords (transcript (state w)))) in
      storedTranscripts (state w') = storedTranscripts (state w) ++ [r]
      /\ localStorage w' = Some (storedTranscripts (state w) ++ [r]))
  /\ (truthy (trim (transcript (state w))) = false ->
      storedTranscripts (state w') = storedTranscripts (state w)
      /\ localStorage w' = localStorage w).
Proof.
  intros Href w'. subst w'. unfold fromPage.
  rewrite render_state, render_localStorage.
  unfold Limits.handleStopRecording. rewrite Href.
  destruct (truthy _); simpl.
  - split; [reflexivity|]. split; [auto|discriminate].
  - split; [reflexivity|]. split; [discriminate|auto].
Qed.

Lemma fromPage_start_recognitionRef (h : Render -> World -> World)
  (w : World) :
  recognitionRef (h (state w) w) = true -> recognitionRef (fromPage h w) = true.
Proof.
  intros H. unfold fromPage, render.
  destruct (RecordingStatus_eqb _ _ && Language_eqb _ _); [exact H|reflexivity].
Qed.

Lemma fromRecognition_recognitionRef (h : Render -> World -> World)
  (w : World) :
  recognitionRef (h (bound w) w) = true ->
  recognitionRef (fromRecognition h w) = true.
Proof.
  intros H. unfold fromRecognition, render.
  destruct (RecordingStatus_eqb _ _ && Language_eqb _ _); [exact H|reflexivity].
Qed.

(** A start in the revision with limits, from the page. *)
Lemma Limits_start_from_page (now : Z) (w : World) :
  recognitionRef w = true ->
  let w' := fromPage (fun _ => Limits.handleStartRecording now false) w in
  state w'
  = mkRender recording [] None [] (selectedLanguage (state w))
      (storedTranscripts (state w)) (Some now)
  /\ transcriptRef w' = []
  /\ recognitionRef w' = true.
Proof.
  intros Href w'. subst w'. split; [|split].
  - unfold fromPage. rewrite render_state. reflexivity.
  - unfold fromPage. rewrite render_transcriptRef. reflexivity.
  - apply fromPage_start_recognitionRef. exact Href.
Qed.

(** A delivery within the word limit, from the recognizer. *)
Lemma Limits_result_applied (now : Z) (results : list Slot) (w : World) :
  recognitionRef w = true ->
  countWords (transcriptRef w ++ joinFinal results) <= MAX_WORD_COUNT ->
  let w' := fromRecognition (Limits.onresult now results) w in
  state w'
  = mkRender (status (state w)) (transcriptRef w ++ joinFinal results)
      (errorState (state w)) (joinInterim results)
      (selectedLanguage (state w)) (storedTranscripts (state w))
      (recordingStartTime (state w))
  /\ transcriptRef w' = transcriptRef w ++ joinFinal results
  /\ recognitionRef w' = true.
Proof.
  intros Href Hle w'. subst w'.
  pose proof (Limits_onresult_within_limit now results (bound w) w Hle) as Hon.
  split; [|split].
  - unfold fromRecognition. rewrite render_state, Hon. reflexivity.
  - unfold fromRecognition. rewrite render_transcriptRef, Hon. reflexivity.
  - apply fromRecognition_recognitionRef. rewrite Hon. exact Href.
Qed.

(** C6.  In the revision with limits: a session is started, one final
    slot "hello world" is delivered, which makes the final text
    "hello world ", and the recording is stopped.  The stored transcripts
    are then the ones from before and one new record with that text and
    a word count of 2, the storage holds the same list, and the status
    is [complete].  A stop while the trimmed final text is empty adds no
    record. *)
Theorem C6_manual_stop_persists (w v : World) (now0 now1 now2 now : Z) :
  recognitionRef w = true ->
  recognitionRef v = true ->
  trim (transcript (state v)) = [] ->
  let w1 := fromPage (fun _ => Limits.handleStartRecording now0 false) w in
  let w2 :=
    fromRecognition
      (Limits.onresult now1 [mkSlot true (js "hello world")]) w1 in
  let w3 := fromPage (Limits.handleStopRecording now2) w2 in
  let r := mkStoredTranscript (toString now2) (js "hello world ")
             (selectedLanguage (state w)) now2 (Some 2) in
  let v' := fromPage (Limits.handleStopRecording now) v in
  (status (state w1) = recording
   /\ transcript (state w2) = js "hello world "
   /\ storedTranscripts (state w3) = storedTranscripts (state w) ++ [r]
   /\ localStorage w3 = Some (storedTranscripts (state w) ++ [r])
   /\ text r = js "hello world " /\ wordCount r = Some 2
   /\ status (state w3) = complete)
  /\ (storedTranscripts (state v') = storedTranscripts (state v)
      /\ localStorage v' = localStorage v
      /\ status (state v') = complete).
Proof.
  intros Hw Hv Hblank w1 w2 w3 r v'.
  assert (Htext : [] ++ joinFinal [mkSlot true (js "hello world")]
                  = js "hello world ") by (vm_compute; reflexivity).
  assert (Hwc : countWords (js "hello world ") = 2)
    by (vm_compute; reflexivity).
  assert (Htr : truthy (trim (js "hello world ")) = true)
    by (vm_compute; reflexivity).
  split.
  - destruct (Limits_start_from_page now0 w Hw) as (Hs1 & Hr1 & Href1).
    fold w1 in Hs1, Hr1, Href1.
    destruct (Limits_result_applied now1 [mkSlot true (js "hello world")]
                w1 Href1) as (Hs2 & _ & Href2).
    { rewrite Hr1, Htext, Hwc. unfold MAX_WORD_COUNT. lia. }
    fold w2 in Hs2, Href2. clearbody w1.
    rewrite Hr1, Htext, Hs1 in Hs2. fields.
    destruct (Limits_stop_from_page now2 w2 Href2) as (Hc & Hadd & _).
    fold w3 in Hc, Hadd. clearbody w2 w3.
    rewrite Hs2 in Hadd. fields. rewrite Hwc in Hadd.
    destruct (Hadd Htr) as [Hst Hls].
    rewrite Hs1, Hs2. fields.
    repeat split; assumption.
  - destruct (Limits_stop_from_page now v Hv) as (Hc & _ & Hnone).
    fold v' in Hc, Hnone. clearbody v'. rewrite Hblank in Hnone.
    destruct (Hnone eq_refl) as [Hst Hls]. auto.
Qed.

Lemma C6_manual_stop_persists_witness :
  let w := mount None 0 in
  let w3 :=
    fromPage (Limits.handleStopRecording 30)
      (fromRecognition (Limits.onresult 20 [mkSlot true (js "hello world")])
         (fromPage (fun _ => Limits.handleStartRecording 10 false) w)) in
  localStorage w3
  = Some [mkStoredTranscript (js "30") (js "hello world ") en_US 30 (Some 2)]
  /\ localStorage (fromPage (Limits.handleStopRecording 40) w) = None.
Proof.
  intros w w3.
  destruct (C6_manual_stop_persists w w 10 20 30 40)
    as [(_ & _ & _ & Hls & _) (_ & Hv & _)].
  - reflexivity.
  - reflexivity.
  - reflexivity.
  - exact (conj Hls Hv).
Defined.

(** A stop in [src/App.tsx] run by a handler of the page whose render
    has a final text with something besides white space. *)
Lemma Base_handleStopRecording_stores (now : Z) (c : Render) (w : World) :
  recognitionRef w = true ->
  truthy (trim (transcript c)) = true ->
  let r := mkStoredTranscript (toString now) (transcript c)
             (selectedLanguage c) now None in
  let w' := Base.handleStopRecording now c w in
  status (state w') = complete
  /\ selectedLanguage (state w') = selectedLanguage (state w)
  /\ storedTranscripts (state w') = storedTranscripts c ++ [r]
  /\ localStorage w' = Some (storedTranscripts c ++ [r]).
Proof.
  intros Href Ht r w'. subst w'. unfold Base.handleStopRecording.
  rewrite Href, Ht. simpl. auto.
Qed.

(** A start in [src/App.tsx], from the page. *)
Lemma Base_start_from_page (w : World) :
  recognitionRef w = true ->
  let w' := fromPage (fun _ => Base.handleStartRecording false) w in
  state w'
  = mkRender recording [] None [] (selectedLanguage (state w))
      (storedTranscripts (state w)) (recordingStartTime (state w))
  /\ recognitionRef w' = true.
Proof.
  intros Href w'. subst w'. split.
  - unfold fromPage. rewrite render_state. reflexivity.
  - apply fromPage_start_recognitionRef. exact Href.
Qed.

(** A delivery in [src/App.tsx], from the recognizer. *)
Lemma Base_result_from_recognition (results : list Slot) (w : World) :
  recognitionRef w = true ->
  let w' := fromRecognition (fun _ => Base.onresult results) w in
  state w'
  = mkRender (status (state w)) (joinFinal results) (errorState (state w))
      (joinInterim results) (selectedLanguage (state w))
      (storedTranscripts (state w)) (recordingStartTime (state w))
  /\ recognitionRef w' = true
  /\ synced w'.
Proof.
  intros Href w'. subst w'. split; [|split].
  - unfold fromRecognition. rewrite render_state.
    unfold Base.onresult. rewrite scanResults_join. reflexivity.
  - apply fromRecognition_recognitionRef.
    unfold Base.onresult. rewrite scanResults_join. exact Href.
  - apply render_synced.
Qed.

(** A language change in [src/App.tsx], from the page, while the render
    is recording and its final text has something besides white
    space. *)
Lemma Base_language_change_while_recording (now : Z) (lang : Language)
  (w : World) :
  recognitionRef w = true ->
  synced w ->
  status (state w) = recording ->
  truthy (trim (transcript (state w))) = true ->
  let r := mkStoredTranscript (toString now) (transcript (state w))
             (selectedLanguage (state w)) now None in
  let w' := fromPage (Base.handleLanguageChange now lang) w in
  status (state w') = complete
  /\ selectedLanguage (state w') = lang
  /\ recognitionLang w' = lang
  /\ storedTranscripts (state w') = storedTranscripts (state w) ++ [r]
  /\ localStorage w' = Some (storedTranscripts (state w) ++ [r]).
Proof.
  intros Href [Hsync _] Hrec Ht r w'. subst w'.
  assert (Hh : Base.handleLanguageChange now lang (state w) w
               = Base.handleStopRecording now (state w)
                   (setSelectedLanguage lang w)).
  { unfold Base.handleLanguageChange. rewrite Hrec. reflexivity. }
  destruct (Base_handleStopRecording_stores now (state w)
              (setSelectedLanguage lang w) Href Ht)
    as (Hc & Hl & Hst & Hls).
  rewrite <- Hh in Hc, Hl, Hst, Hls.
  unfold fromPage. rewrite render_state, render_localStorage.
  split; [exact Hc|]. split; [exact Hl|].
  split; [|split; assumption].
  unfold render.
  replace (RecordingStatus_eqb _ _) with false.
  - simpl. exact Hl.
  - symmetry. rewrite Hc.
    replace (status (bound _)) with recording; [reflexivity|].
    rewrite Hh. unfold Base.handleStopRecording.
    rewrite Hrec in Hsync.
    destruct (recognitionRef _), (truthy _); simpl; congruence.
Qed.

(** C7.  In [src/App.tsx]: a recording is started in en-US, the final
    slot "test" is delivered, and the language handler is called with
    zh-CN.  The stored transcripts gain exactly one record, whose
    language is en-US and whose text is the final text "test "; the
    storage holds the same list; the selected language is zh-CN, as is
    the recognizer's, and the status is [complete]. *)
Theorem C7_language_change_flushes (w : World) (now : Z) :
  recognitionRef w = true ->
  selectedLanguage (state w) = en_US ->
  let w1 := fromPage (fun _ => Base.handleStartRecording false) w in
  let w2 :=
    fromRecognition (fun _ => Base.onresult [mkSlot true (js "test")]) w1 in
  let w3 := fromPage (Base.handleLanguageChange now zh_CN) w2 in
  let r := mkStoredTranscript (toString now) (js "test ") en_US now None in
  status (state w2) = recording
  /\ selectedLanguage (state w2) = en_US
  /\ storedTranscripts (state w3) = storedTranscripts (state w) ++ [r]
  /\ localStorage w3 = Some (storedTranscripts (state w) ++ [r])
  /\ language r = en_US
  /\ selectedLanguage (state w3) = zh_CN
  /\ recognitionLang w3 = zh_CN
  /\ status (state w3) = complete.
Proof.
  intros Hw Hlang w1 w2 w3 r.
  assert (Htext : joinFinal [mkSlot true (js "test")] = js "test ")
    by (vm_compute; reflexivity).
  assert (Htr : truthy (trim (js "test ")) = true)
    by (vm_compute; reflexivity).
  destruct (Base_start_from_page w Hw) as (Hs1 & Href1).
  fold w1 in Hs1, Href1.
  destruct (Base_result_from_recognition [mkSlot true (js "test")] w1 Href1)
    as (Hs2 & Href2 & Hsync2).
  fold w2 in Hs2, Href2, Hsync2. clearbody w1.
  rewrite Htext, Hs1, Hlang in Hs2. fields.
  destruct (Base_language_change_while_recording now zh_CN w2 Href2 Hsync2)
    as (Hc & Hl & Hrl & Hst & Hls).
  { rewrite Hs2. reflexivity. }
  { rewrite Hs2. exact Htr. }
  fold w3 in Hc, Hl, Hrl, Hst, Hls. clearbody w2 w3.
  rewrite Hs2 in Hst, Hls. fields.
  rewrite Hs2. fields.
  repeat split; assumption.
Qed.

Lemma C7_language_change_flushes_witness :
  let w := mount None 0 in
  let w3 :=
    fromPage (Base.handleLanguageChange 30 zh_CN)
      (fromRecognition (fun _ => Base.onresult [mkSlot true (js "test")])
         (fromPage (fun _ => Base.handleStartRecording false) w)) in
  localStorage w3
  = Some [mkStoredTranscript (js "30") (js "test ") en_US 30 None]
  /\ selectedLanguage (state w3) = zh_CN
  /\ status (state w3) = complete.
Proof.
  intros w w3.
  destruct (C7_language_change_flushes w 30)
    as (_ & _ & _ & Hls & _ & Hl & _ & Hc).
  - reflexivity.
  - reflexivity.
  - exact (conj Hls (conj Hl Hc)).
Defined.

(** ** The end callback and the error banner *)

(** Whatever render installed it, the end callback does not make the
    status [recording]. *)
Lemma onend_never_starts_recording (c : Render) (w : World) :
  status (state (onend c w)) = recording -> status (state w) = recording.
Proof.
  unfold onend.
  destruct (RecordingStatus_eqb (status c) recording); [auto|].
  destruct (negb _); [discriminate|auto].
Qed.

(** The end callback reads the status of the render that installed it,
    not the current one. *)
Lemma onend_reads_installed_status (c : Render) (w : World) :
  onend c w
  = match status c with
    | recording => recognition_call call_start w
    | error => w
    | idle | transcribing | complete => setStatus complete w
    end.
Proof. unfold onend. destruct (status c); reflexivity. Qed.

(** When the end callback was installed by a render with the current
    status, in both revisions: while recording it calls
    [recognition.start()] and the status stays [recording]; with status
    [complete] or [error] it changes neither the status nor the
    recognizer; with any other status the status becomes [complete].
    It touches neither the texts nor the stored transcripts. *)
Lemma onend_policy_of_current_render (w : World) :
  synced w ->
  let w' := fromRecognition onend w in
  Base.step w RecognitionEnd = w'
  /\ Limits.step w RecognitionEnd = w'
  /\ match status (state w) with
     | recording =>
         status (state w') = recording /\ calls w' = calls w ++ [call_start]
     | complete => status (state w') = complete /\ calls w' = calls w
     | error => status (state w') = error /\ calls w' = calls w
     | idle | transcribing => status (state w') = complete
     end
  /\ (status (state w') = recording -> status (state w) = recording)
  /\ transcript (state w') = transcript (state w)
  /\ storedTranscripts (state w') = storedTranscripts (state w)
  /\ localStorage w' = localStorage w.
Proof.
  intros Hsync w'. subst w'.
  split; [reflexivity|]. split; [reflexivity|].
  unfold fromRecognition.
  destruct Hsync as [Hs Hl].
  assert (Hcases :
            match status (state w) with
            | recording => onend (bound w) w = recognition_call call_start w
            | error => onend (bound w) w = w
            | _ => onend (bound w) w = setStatus complete w
            end).
  { unfold onend. rewrite Hs. destruct (status (state w)); reflexivity. }
  rewrite render_state, render_localStorage.
  destruct (status (state w)) eqn:E; rewrite Hcases.
  - (* idle *)
    writes. repeat split; try reflexivity. discriminate.
  - (* recording *)
    rewrite render_idle by (split; simpl; congruence).
    writes. repeat split; try reflexivity; assumption.
  - (* transcribing *)
    writes. repeat split; try reflexivity. discriminate.
  - (* complete *)
    assert (Hsame : setStatus complete w = w).
    { destruct w as [[s t e i l st rt] b tr rr rl ls cs].
      simpl in E. subst s. reflexivity. }
    rewrite Hsame, render_idle by (split; simpl; congruence).
    repeat split; try reflexivity; try assumption.
    rewrite E. discriminate.
  - (* error *)
    rewrite render_idle by (split; simpl; congruence).
    repeat split; try reflexivity; try assumption.
    rewrite E. discriminate.
Qed.

Lemma onend_policy_of_current_render_examples :
  let rec := Limits.run (mount None 0) [ClickMic 1 false] in
  let done := Limits.run rec [ClickMic 2 false] in
  let failed := Limits.run rec [RecognitionError (js "network")] in
  (status (state (fromRecognition onend rec)) = recording
   /\ calls (fromRecognition onend rec) = calls rec ++ [call_start])
  /\ status (state (fromRecognition onend done)) = complete
  /\ status (state (fromRecognition onend failed)) = error
  /\ status (state (fromRecognition onend (mount None 0))) = complete.
Proof.
  intros rec done failed.
  pose proof (onend_policy_of_current_render rec (Limits_run_synced _ _ (mount_synced None 0)))
    as (_ & _ & Hrec & _).
  pose proof (onend_policy_of_current_render done
                (Limits_run_synced _ _
                   (Limits_run_synced _ _ (mount_synced None 0))))
    as (_ & _ & Hdone & _).
  pose proof (onend_policy_of_current_render failed
                (Limits_run_synced _ _
                   (Limits_run_synced _ _ (mount_synced None 0))))
    as (_ & _ & Hfailed & _).
  pose proof (onend_policy_of_current_render (mount None 0) (mount_synced None 0))
    as (_ & _ & Hidle & _).
  exact (conj Hrec (conj (proj1 Hdone) (conj (proj1 Hfailed) Hidle))).
Defined.

(** C8, for an end callback that arrives before the component has
    rendered again.  [recognition.onerror] sets the status with a setter
    and the handlers are replaced only by the effect of the render that
    follows, so an end callback delivered right after the error still
    tests the status of the earlier render.

    - A recording is stopped (status [complete]); the recognizer then
      reports an error and ends.  The error makes the status [error];
      the end callback, installed with [complete], sets it back to
      [complete], with the error still on the banner.
    - During a recording the recognizer reports an error and ends.  The
      status is [error]; the end callback, installed with [recording],
      calls [recognition.start()] after the [stop] of the error
      handler. *)
Theorem C8_late_end_callback :
  let recordingWorld :=
    Base.run (mount None 0)
      [ClickMic 1 false; Result 2 [mkSlot true (js "hello")]] in
  let stopped := Base.step recordingWorld (ClickMic 3 false) in
  let failedAfterStop := onerror (js "no-speech") stopped in
  let endedAfterStop :=
    render (onend (bound failedAfterStop) failedAfterStop) in
  let failed := onerror (js "network") recordingWorld in
  let ended := render (onend (bound failed) failed) in
  (status (state stopped) = complete
   /\ status (state failedAfterStop) = error
   /\ status (bound failedAfterStop) = complete
   /\ status (state endedAfterStop) = complete
   /\ errorState (state endedAfterStop)
      = Some (mkErrorState (js "Recognition Error")
                (Some (js "Error: no-speech. Please try again."))))
  /\ (status (state recordingWorld) = recording
      /\ status (state failed) = error
      /\ status (bound failed) = recording
      /\ calls failed = calls recordingWorld ++ [call_stop]
      /\ calls (onend (bound failed) failed)
         = calls recordingWorld ++ [call_stop; call_start]
      /\ status (state ended) = error).
Proof.
  vm_compute. repeat split.
Qed.

(** C10.  Dismissing the error banner, in both revisions and from any
    status: the status becomes [idle] and the error is cleared; the
    final and interim texts, the stored transcripts and the storage are
    as before. *)
Theorem C10_dismiss_resets_to_idle (w : World) :
  let w' := fromPage (fun _ => handleDismissError) w in
  Base.step w DismissError = w'
  /\ Limits.step w DismissError = w'
  /\ status (state w') = idle
  /\ errorState (state w') = None
  /\ transcript (state w') = transcript (state w)
  /\ interimTranscript (state w') = interimTranscript (state w)
  /\ storedTranscripts (state w') = storedTranscripts (state w)
  /\ localStorage w' = localStorage w
  /\ transcriptRef w' = transcriptRef w.
Proof.
  intros w'. subst w'. unfold fromPage.
  rewrite render_state, render_localStorage, render_transcriptRef.
  unfold handleDismissError. writes.
  repeat split; reflexivity.
Qed.

(** ** File export *)

Lemma digit_range (n : Z) : (48 <= digit n <= 57)%N.
Proof.
  unfold digit. pose proof (Z.mod_pos_bound n 10 ltac:(lia)). lia.
Qed.

Lemma digit_is_digit (n : Z) : is_digit (digit n) = true.
Proof.
  unfold is_digit. pose proof (digit_range n) as [Hlo Hhi].
  apply andb_true_iff. split; apply N.leb_le; assumption.
Qed.

Lemma digit_is_not (n : Z) (c : jschar) :
  (c < 48 \/ 57 < c)%N -> (digit n =? c)%N = false.
Proof.
  intros H. apply N.eqb_neq. pose proof (digit_range n). lia.
Qed.

Lemma digit_value (n : Z) : Z.of_N (digit n) - 48 = n mod 10.
Proof.
  unfold digit. pose proof (Z.mod_pos_bound n 10 ltac:(lia)). lia.
Qed.

Lemma pad2_value (n : Z) : 0 <= n < 100 -> digits_value (pad2 n) = n.
Proof.
  intros H. unfold digits_value, pad2. cbn [fold_left].
  rewrite !digit_value.
  Z.to_euclidean_division_equations. lia.
Qed.

Lemma pad4_value (n : Z) : 0 <= n < 10000 -> digits_value (pad4 n) = n.
Proof.
  intros H. unfold digits_value, pad4, pad3, pad2. cbn [fold_left].
  rewrite !digit_value.
  Z.to_euclidean_division_equations. lia.
Qed.

(** C9, as the code has it.  For every text, both languages and every
    date with a four-digit year, the download is named
    [transcript-<en|cn>-<YYYY-MM-DD>.txt]: the language segment is "en"
    for en-US and "cn" for zh-CN, the date is the UTC date in ten
    characters whose digits denote year, month and day.  The blob is
    the text alone, of type text/plain. *)
Theorem C9_export_file_name (today : UTCDate) (text : jsstring)
  (lang : Language) :
  0 <= isoYear today <= 9999 ->
  1 <= isoMonth today <= 12 ->
  1 <= isoDay today <= 31 ->
  let d := handleDownload today text lang in
  let date :=
    pad4 (isoYear today) ++ js "-" ++ pad2 (isoMonth today) ++ js "-"
      ++ pad2 (isoDay today) in
  download d
  = js "transcript-"
      ++ match lang with en_US => js "en" | zh_CN => js "cn" end
      ++ js "-" ++ date ++ js ".txt"
  /\ isIsoDate date = true
  /\ digits_value (pad4 (isoYear today)) = isoYear today
  /\ digits_value (pad2 (isoMonth today)) = isoMonth today
  /\ digits_value (pad2 (isoDay today)) = isoDay today
  /\ blobParts d = [text]
  /\ blobType d = js "text/plain".
Proof.
  intros Hy Hm Hd d date. subst d.
  assert (Hdate : date
                  = pad4 (isoYear today) ++ [45%N] ++ pad2 (isoMonth today)
                      ++ [45%N] ++ pad2 (isoDay today)) by reflexivity.
  clearbody date.
  assert (Hiso : isIsoDate date = true).
  { rewrite Hdate. unfold isIsoDate, pad4, pad3, pad2. cbn [app].
    now rewrite !digit_is_digit. }
  assert (Hbefore : before_first (N_of_ascii "T") (toISOString today) = date).
  { unfold toISOString.
    replace ((0 <=? isoYear today) && (isoYear today <=? 9999)) with true
      by (symmetry; apply andb_true_iff; split; apply Z.leb_le; lia).
    change (js "T") with [84%N]. change (js "-") with [45%N].
    change (N_of_ascii "T") with 84%N.
    set (rest := pad2 (isoHours today) ++ _).
    rewrite Hdate. unfold pad4, pad3, pad2. cbn [app before_first].
    rewrite !digit_is_not by lia.
    change (45 =? 84)%N with false. change (84 =? 84)%N with true.
    reflexivity. }
  unfold handleDownload. cbn [download blobParts blobType]. rewrite Hbefore.
  split.
  - destruct lang; reflexivity.
  - split; [exact Hiso|].
    split; [apply pad4_value; lia|].
    split; [apply pad2_value; lia|].
    split; [apply pad2_value; lia|].
    split; reflexivity.
Qed.

Lemma C9_export_file_name_witness :
  let d := handleDownload (mkUTCDate 2025 3 9 17 45 0 120) (js "ni hao ") zh_CN in
  download d = js "transcript-cn-2025-03-09.txt"
  /\ blobParts d = [js "ni hao "].
Proof.
  intros d.
  destruct (C9_export_file_name (mkUTCDate 2025 3 9 17 45 0 120)
              (js "ni hao ") zh_CN)
    as (Hname & _ & _ & _ & _ & Hparts & _).
  - simpl; lia.
  - simpl; lia.
  - simpl; lia.
  - exact (conj Hname Hparts).
Defined.

(** C9 as stated fails for zh-CN: the language segment of the name is
    "cn", not "zh". *)
Lemma C9_zh_CN_segment_is_cn :
  let d := handleDownload (mkUTCDate 2025 3 9 17 45 0 120) (js "ni hao ") zh_CN in
  download d = js "transcript-cn-2025-03-09.txt"
  /\ download d <> js "transcript-zh-2025-03-09.txt".
Proof.
  vm_compute. split; [reflexivity|discriminate].
Qed.

(** * Further properties of the code *)

(** ** Counting words *)

Lemma trimEnd_cons (c : jschar) (r : jsstring) :
  trimEnd (c :: r)
  = match trimEnd r with
    | [] => if is_space c then [] else [c]
    | kept => c :: kept
    end.
Proof. reflexivity. Qed.

Lemma trimEnd_idempotent (s : jsstring) : trimEnd (trimEnd s) = trimEnd s.
Proof.
  induction s as [|c r IH]; [reflexivity|].
  rewrite (trimEnd_cons c r). destruct (trimEnd r) as [|k ks] eqn:E.
  - destruct (is_space c) eqn:Ec; [reflexivity|].
    rewrite trimEnd_cons. cbn [trimEnd]. now rewrite Ec.
  - rewrite trimEnd_cons, IH. reflexivity.
Qed.

Lemma wordRuns_go_trimStart (s : jsstring) :
  wordRuns_go false (trimStart s) = wordRuns_go false s.
Proof.
  induction s as [|c r IH]; [reflexivity|].
  cbn [trimStart wordRuns_go]. destruct (is_space c) eqn:Ec; [exact IH|].
  cbn [wordRuns_go]. now rewrite Ec.
Qed.

Lemma wordRuns_go_trimEnd (s : jsstring) (b : bool) :
  wordRuns_go b (trimEnd s) = wordRuns_go b s.
Proof.
  revert b. induction s as [|c r IH]; intros b; [reflexivity|].
  rewrite trimEnd_cons. destruct (trimEnd r) as [|k ks] eqn:E.
  - cbn [wordRuns_go]. destruct (is_space c) eqn:Ec.
    + now rewrite <- IH.
    + cbn [wordRuns_go]. rewrite Ec, <- (IH true). reflexivity.
  - remember (k :: ks) as kept eqn:Ek. clear Ek.
    cbn [wordRuns_go]. destruct (is_space c); now rewrite IH.
Qed.

(** A text that is its own [trimEnd]: the pieces of the split after a
    word character are one more than the words still to come, and after
    white space as many as those, unless nothing is left. *)
Lemma split_go_length (s : jsstring) :
  trimEnd s = s ->
  forall cur,
    List.length (split_go false cur s) = S (wordRuns_go true s)
    /\ (s <> [] ->
        List.length (split_go true cur s) = wordRuns_go false s).
Proof.
  induction s as [|c r IH]; intros Hs cur.
  - split; [reflexivity|congruence].
  - rewrite trimEnd_cons in Hs.
    assert (Hr : trimEnd r = r /\ (is_space c = true -> r <> [])).
    { destruct (trimEnd r) as [|k ks] eqn:E.
      - destruct (is_space c); [discriminate|].
        injection Hs as <-. split; [reflexivity|discriminate].
      - injection Hs as <-. split; [reflexivity|discriminate]. }
    destruct Hr as [Hr Hne]. specialize (IH Hr).
    cbn [split_go wordRuns_go]. destruct (is_space c) eqn:Ec.
    + specialize (Hne eq_refl).
      split; [|intros _].
      * cbn [List.length]. f_equal.
        destruct (IH []) as [_ H]. exact (H Hne).
      * destruct (IH cur) as [_ H]. exact (H Hne).
    + split; [|intros _].
      * destruct (IH (cur ++ [c])) as [H _]. exact H.
      * destruct (IH (cur ++ [c])) as [H _]. rewrite H. reflexivity.
Qed.

Lemma trimStart_head (s : jsstring) (c : jschar) (r : jsstring) :
  trimStart s = c :: r -> is_space c = false.
Proof.
  induction s as [|d s IH]; [discriminate|].
  cbn [trimStart]. destruct (is_space d) eqn:Ed; [exact IH|].
  intros H. injection H as <- _. exact Ed.
Qed.

Lemma trimEnd_head (s : jsstring) (c : jschar) (r : jsstring) :
  trimEnd s = c :: r -> exists r', s = c :: r'.
Proof.
  destruct s as [|d s]; [discriminate|].
  rewrite trimEnd_cons. destruct (trimEnd s).
  - destruct (is_space d); [discriminate|].
    intros H. injection H as <- _. now exists s.
  - intros H. injection H as <- _. now exists s.
Qed.

(** X1.  [s.trim().split(/\s+/).length] is the number of words of [s],
    its maximal runs of code units that are not white space, except that
    a text without any word counts 1. *)
Theorem countWords_is_wordRuns (s : jsstring) :
  countWords s = Z.max 1 (Z.of_nat (wordRuns s)).
Proof.
  unfold countWords, split_spaces, wordRuns.
  assert (Ht : trimEnd (trim s) = trim s) by apply trimEnd_idempotent.
  assert (Hw : wordRuns_go false (trim s) = wordRuns_go false s).
  { unfold trim. now rewrite wordRuns_go_trimEnd, wordRuns_go_trimStart. }
  rewrite <- Hw.
  destruct (split_go_length (trim s) Ht []) as [Hlen _]. rewrite Hlen.
  destruct (trim s) as [|c r] eqn:E; [reflexivity|].
  assert (Hc : is_space c = false).
  { unfold trim in E. destruct (trimEnd_head _ _ _ E) as [r' E'].
    exact (trimStart_head _ _ _ E'). }
  cbn [wordRuns_go]. rewrite Hc. lia.
Qed.

Lemma wordRuns_go_app_space (a x : jsstring) (b : bool) :
  wordRuns_go b (a ++ 32%N :: x)
  = (wordRuns_go b a + wordRuns_go false x)%nat.
Proof.
  revert b. induction a as [|c a IH]; intros b; [reflexivity|].
  cbn [app wordRuns_go]. destruct (is_space c); rewrite IH; lia.
Qed.

Lemma joinFinal_app (a b : list Slot) :
  joinFinal (a ++ b) = joinFinal a ++ joinFinal b.
Proof.
  unfold joinFinal. now rewrite filter_app, map_app, concat_app.
Qed.

Lemma wordRuns_joinFinal (results : list Slot) :
  wordRuns (joinFinal results)
  = list_sum (map (fun r => wordRuns (alternative0 r))
                (filter isFinal results)).
Proof.
  unfold joinFinal, wordRuns. change (js " ") with [32%N].
  induction (filter isFinal results) as [|r rs IH]; [reflexivity|].
  cbn [map concat list_sum].
  rewrite <- app_assoc. cbn [app].
  rewrite wordRuns_go_app_space, IH. reflexivity.
Qed.

(** X2.  The word count of the text that a result set contributes, its
    final slots each followed by a space, is the total number of words in
    those slots, and 1 when they hold no word at all. *)
Theorem countWords_joinFinal (results : list Slot) :
  countWords (joinFinal results)
  = Z.max 1
      (Z.of_nat (list_sum (map (fun r => wordRuns (alternative0 r))
                             (filter isFinal results)))).
Proof.
  rewrite countWords_is_wordRuns, wordRuns_joinFinal. reflexivity.
Qed.

(** ** Cleaning the stored transcripts *)

Lemma loadAndCleanTranscripts_normal (now : Z) (w : World)
  (transcripts : list StoredTranscript) :
  localStorage w = Some transcripts ->
  let valid := filter (fun t => now - timestamp t <? ONE_DAY_MS) transcripts in
  loadAndCleanTranscripts now w = setStoredTranscripts valid (setItem valid w).
Proof.
  intros H valid. unfold loadAndCleanTranscripts. rewrite H. fold valid.
  destruct (Nat.eqb _ _) eqn:E; [|reflexivity].
  apply Nat.eqb_eq in E. apply filter_same_length in E. fold valid in E.
  rewrite E. destruct w as [s b tr rr rl ls cs]. simpl in H. subst ls.
  reflexivity.
Qed.

Lemma filter_filter_implied {A : Type} (f g : A -> bool) (l : list A) :
  (forall a, g a = true -> f a = true) ->
  filter g (filter f l) = filter g l.
Proof.
  intros H. induction l as [|a l IH]; [reflexivity|].
  cbn [filter]. destruct (f a) eqn:Ef.
  - cbn [filter]. now rewrite IH.
  - rewrite IH. destruct (g a) eqn:Eg; [|reflexivity].
    rewrite (H a Eg) in Ef. discriminate.
Qed.

(** X3.  Cleaning twice is cleaning once at the later time: a clean-up
    at [now1] followed by one at [now2], not earlier, leaves the
    component and the storage exactly as a single clean-up at [now2]
    does; in particular a repeated clean-up at the same time changes
    nothing.  A single clean-up changes nothing at all while the key is
    absent; over a stored list it puts the records that are not expired
    both in the component and in the storage and changes nothing
    else. *)
Theorem loadAndCleanTranscripts_later (w : World) (now1 now2 : Z) :
  now1 <= now2 ->
  loadAndCleanTranscripts now2 (loadAndCleanTranscripts now1 w)
  = loadAndCleanTranscripts now2 w
  /\ match localStorage w with
     | None => loadAndCleanTranscripts now2 w = w
     | Some transcripts =>
         let valid :=
           filter (fun t => now2 - timestamp t <? ONE_DAY_MS) transcripts in
         loadAndCleanTranscripts now2 w
         = setStoredTranscripts valid (setItem valid w)
     end.
Proof.
  intros Hle. destruct (localStorage w) as [ts|] eqn:E.
  - split; [|apply (loadAndCleanTranscripts_normal now2 w ts E)].
    rewrite (loadAndCleanTranscripts_normal now1 w ts E).
    rewrite (loadAndCleanTranscripts_normal now2 w ts E).
    set (valid1 := filter (fun t => now1 - timestamp t <? ONE_DAY_MS) ts).
    rewrite (loadAndCleanTranscripts_normal now2
               (setStoredTranscripts valid1 (setItem valid1 w)) valid1)
      by reflexivity.
    subst valid1. rewrite filter_filter_implied.
    + reflexivity.
    + intros t. rewrite !Z.ltb_lt. lia.
  - assert (Hnone : forall now, loadAndCleanTranscripts now w = w).
    { intros now. unfold loadAndCleanTranscripts. now rewrite E. }
    split; [now rewrite !Hnone|apply Hnone].
Qed.

Lemma loadAndCleanTranscripts_later_witness :
  let old := mkStoredTranscript (js "1") (js "old ") en_US 1 None in
  let recent := mkStoredTranscript (js "90000000") (js "new ") zh_CN 90000000 None in
  let w := mount (Some [old; recent]) 5 in
  let empty := mount None 5 in
  loadAndCleanTranscripts 100000000 (loadAndCleanTranscripts 50000000 w)
  = loadAndCleanTranscripts 100000000 w
  /\ storedTranscripts (state (loadAndCleanTranscripts 100000000 w))
     = [recent]
  /\ loadAndCleanTranscripts 100000000 empty = empty.
Proof.
  intros old recent w empty.
  destruct (loadAndCleanTranscripts_later w 50000000 100000000) as [H1 H2];
    [lia|].
  destruct (loadAndCleanTranscripts_later empty 50000000 100000000)
    as [_ H3]; [lia|].
  split; [exact H1|]. split; [|exact H3].
  change (localStorage w) with (Some [old; recent]) in H2.
  cbv zeta in H2. rewrite H2. reflexivity.
Defined.

(** ** Times printed on the page *)

(** X4.  For a stored transcript that is not expired and not from the
    future, the time to expiry is printed as [<hours>h <minutes>m] with
    hours from 0 to 24 and minutes from 0 to 59, and together they are the
    whole minutes that remain of the 24 hours. *)
Theorem getTimeRemaining_live (now timestamp : Z) :
  0 <= now - timestamp < ONE_DAY_MS ->
  let hours := fst (timeRemaining now timestamp) in
  let minutes := snd (timeRemaining now timestamp) in
  0 <= hours <= 24
  /\ 0 <= minutes <= 59
  /\ 60 * hours + minutes = (ONE_DAY_MS - (now - timestamp)) / (60 * 1000)
  /\ (timestamp < now -> hours <= 23)
  /\ getTimeRemaining now timestamp
     = toString hours ++ js "h " ++ toString minutes ++ js "m".
Proof.
  unfold getTimeRemaining, timeRemaining, ONE_DAY_MS. cbn [fst snd].
  intros H. cbv zeta.
  change (24 * 60 * 60 * 1000) with 86400000 in *.
  change (60 * 60 * 1000) with 3600000. change (60 * 1000) with 60000.
  rewrite Z.rem_mod_nonneg by lia.
  split; [|split; [|split; [|split]]]; try reflexivity;
    Z.to_euclidean_division_equations; lia.
Qed.

Lemma getTimeRemaining_live_witness :
  getTimeRemaining 100000000 (100000000 - 3660000) = js "22h 59m".
Proof.
  destruct (getTimeRemaining_live 100000000 (100000000 - 3660000))
    as (_ & _ & _ & _ & H).
  - unfold ONE_DAY_MS. lia.
  - exact H.
Defined.

(** X5.  A stored transcript past its 24 hours stays on the page until
    the next clean-up, and its time to expiry is printed with negative
    numbers: hours at most -1 and minutes from -60 to 0. *)
Theorem getTimeRemaining_expired (now timestamp : Z) :
  ONE_DAY_MS < now - timestamp ->
  let hours := fst (timeRemaining now timestamp) in
  let minutes := snd (timeRemaining now timestamp) in
  hours <= -1
  /\ -60 <= minutes <= 0
  /\ getTimeRemaining now timestamp
     = toString hours ++ js "h " ++ toString minutes ++ js "m".
Proof.
  unfold getTimeRemaining, timeRemaining, ONE_DAY_MS. cbn [fst snd].
  intros H. cbv zeta.
  change (24 * 60 * 60 * 1000) with 86400000 in *.
  change (60 * 60 * 1000) with 3600000. change (60 * 1000) with 60000.
  split; [|split]; try reflexivity;
    Z.to_euclidean_division_equations; lia.
Qed.

Lemma getTimeRemaining_expired_witness :
  getTimeRemaining (86400000 + 3599999) 0 = js "-1h -60m".
Proof.
  destruct (getTimeRemaining_expired (86400000 + 3599999) 0) as (_ & _ & H).
  - unfold ONE_DAY_MS. lia.
  - exact H.
Defined.

(** Below 100, a number printed and padded to two characters is its two
    decimal digits; checked on each of the hundred numbers. *)
Lemma padStart2_toString (n : Z) :
  0 <= n < 100 -> padStart2 (toString n) = pad2 n.
Proof.
  intros H.
  assert (Hall :
            forallb
              (fun k =>
                 if list_eq_dec N.eq_dec
                      (padStart2 (toString (Z.of_nat k))) (pad2 (Z.of_nat k))
                 then true else false)
              (seq 0 100) = true) by (vm_compute; reflexivity).
  rewrite forallb_forall in Hall.
  specialize (Hall (Z.to_nat n)).
  rewrite Z2Nat.id in Hall by lia.
  destruct (list_eq_dec N.eq_dec (padStart2 (toString n)) (pad2 n))
    as [Heq|Hne]; [exact Heq|].
  assert (Hin : In (Z.to_nat n) (seq 0 100)) by (apply in_seq; lia).
  specialize (Hall Hin). discriminate.
Qed.

(** X6.  The recording duration printed while recording, in the revision
    with limits: for a start time up to a hundred hours back it is the
    eight characters [HH:MM:SS], two digits each for the whole hours, the
    minutes of the hour and the seconds of the minute. *)
Theorem getRecordingDuration_format (now startTime : Z) (c : Render) :
  recordingStartTime c = Some startTime ->
  startTime <> 0 ->
  0 <= now - startTime < 100 * 60 * 60 * 1000 ->
  let duration := now - startTime in
  let hours := duration / 3600000 in
  let minutes := (duration / 60000) mod 60 in
  let seconds := (duration / 1000) mod 60 in
  getRecordingDuration now c
  = pad2 hours ++ js ":" ++ pad2 minutes ++ js ":" ++ pad2 seconds
  /\ List.length (getRecordingDuration now c) = 8%nat
  /\ 0 <= hours < 100 /\ 0 <= minutes < 60 /\ 0 <= seconds < 60
  /\ duration / 1000 = 3600 * hours + 60 * minutes + seconds.
Proof.
  intros Hc Hnz Hd. cbv zeta.
  assert (Hh : 0 <= (now - startTime) / 3600000 < 100)
    by (Z.to_euclidean_division_equations; lia).
  assert (Hm : Z.rem (now - startTime) (1000 * 60 * 60) / (1000 * 60)
               = ((now - startTime) / 60000) mod 60).
  { rewrite Z.rem_mod_nonneg by lia.
    Z.to_euclidean_division_equations; lia. }
  assert (Hs : Z.rem (now - startTime) (1000 * 60) / 1000
               = ((now - startTime) / 1000) mod 60).
  { rewrite Z.rem_mod_nonneg by lia.
    Z.to_euclidean_division_equations; lia. }
  assert (Hm' : 0 <= ((now - startTime) / 60000) mod 60 < 60)
    by (apply Z.mod_pos_bound; lia).
  assert (Hs' : 0 <= ((now - startTime) / 1000) mod 60 < 60)
    by (apply Z.mod_pos_bound; lia).
  assert (Heq : getRecordingDuration now c
                = pad2 ((now - startTime) / 3600000) ++ js ":"
                    ++ pad2 (((now - startTime) / 60000) mod 60) ++ js ":"
                    ++ pad2 (((now - startTime) / 1000) mod 60)).
  { unfold getRecordingDuration. rewrite Hc.
    replace (startTime =? 0) with false by (symmetry; apply Z.eqb_neq; exact Hnz).
    cbv zeta. rewrite Hm, Hs.
    change (1000 * 60 * 60) with 3600000.
    rewrite !padStart2_toString by lia. reflexivity. }
  split; [exact Heq|]. split; [rewrite Heq; reflexivity|].
  split; [exact Hh|]. split; [exact Hm'|]. split; [exact Hs'|].
  Z.to_euclidean_division_equations; lia.
Qed.

Lemma getRecordingDuration_format_witness :
  getRecordingDuration (1000 + 3723000)
    (mkRender recording [] None [] en_US [] (Some 1000))
  = js "01:02:03".
Proof.
  destruct (getRecordingDuration_format (1000 + 3723000) 1000
              (mkRender recording [] None [] en_US [] (Some 1000)))
    as (H & _).
  - reflexivity.
  - discriminate.
  - lia.
  - exact H.
Defined.

(** ** What every event keeps *)

Lemma synced_test (w : World) :
  RecordingStatus_eqb (status (state w)) (status (bound w))
  && Language_eqb (selectedLanguage (state w)) (selectedLanguage (bound w))
  = true <-> synced w.
Proof.
  unfold synced. rewrite andb_true_iff, RecordingStatus_eqb_eq, Language_eqb_eq.
  intuition congruence.
Qed.

(** A world about to be rendered becomes steady when, if it is
    recording, either its handlers stay and were created with an empty
    final text, or they are replaced and the final text is empty. *)
Lemma steady_render (w : World) :
  recognitionRef w = true ->
  recognitionLang w = selectedLanguage (bound w) ->
  status (state w) <> transcribing ->
  (status (state w) = recording ->
   (synced w /\ transcript (bound w) = [])
   \/ (status (bound w) <> recording /\ transcript (state w) = [])) ->
  steady (render w).
Proof.
  intros Href Hlang Hnt Hrec.
  unfold steady. split; [apply render_synced|].
  unfold render.
  destruct (RecordingStatus_eqb _ _ && Language_eqb _ _) eqn:E.
  - apply synced_test in E.
    split; [exact Href|]. split; [exact Hlang|]. split; [exact Hnt|].
    intros Hr. destruct (Hrec Hr) as [[_ Hb]|[Hb _]]; [exact Hb|].
    destruct E as [Es _]. congruence.
  - cbn [state bound recognitionRef recognitionLang installHandlers
           recognition_call].
    split; [reflexivity|]. split; [reflexivity|]. split; [exact Hnt|].
    intros Hr. destruct (Hrec Hr) as [[Hs _]|[_ Ht]]; [|exact Ht].
    apply synced_test in Hs. congruence.
Qed.

(** Destructs a world into its cells and rewrites with what [steady]
    says about them. *)
Ltac open_world w H :=
  destruct w as [[s tx er it la st rt] [bs btx ber bit bla bst brt]
                   tr rr rl ls cs];
  unfold steady, synced in H;
  cbn [status transcript errorState interimTranscript selectedLanguage
       storedTranscripts recordingStartTime state bound transcriptRef
       recognitionRef recognitionLang localStorage calls] in H;
  destruct H as ((Hbs & Hbl) & Hrr & Hrl & Hnt & Hbt);
  subst bs bla rr rl.

Lemma steady_start (w : World) (w' : World) :
  steady w ->
  status (state w) <> recording ->
  bound w' = bound w ->
  recognitionRef w' = true ->
  recognitionLang w' = recognitionLang w ->
  status (state w') <> transcribing ->
  transcript (state w') = [] ->
  steady (render w').
Proof.
  intros ([Hs Hl] & Hrr & Hrl & Hnt & Hbt) Hnr Hb Href Hlang Hnt' Ht.
  apply steady_render; try assumption.
  - rewrite Hlang, Hb. exact Hrl.
  - intros _. right. split; [|exact Ht]. rewrite Hb, Hs. exact Hnr.
Qed.

Lemma steady_keep (w : World) (w' : World) :
  steady w ->
  bound w' = bound w ->
  recognitionRef w' = true ->
  recognitionLang w' = recognitionLang w ->
  status (state w') <> transcribing ->
  (status (state w') = recording ->
   status (state w) = recording
   /\ selectedLanguage (state w') = selectedLanguage (state w)) ->
  steady (render w').
Proof.
  intros ([Hs Hl] & Hrr & Hrl & Hnt & Hbt) Hb Href Hlang Hnt' Hrec.
  apply steady_render; try assumption.
  - rewrite Hlang, Hb. exact Hrl.
  - intros Hr. destruct (Hrec Hr) as [Hr0 Hl0]. left.
    unfold synced. rewrite Hb. repeat split; try congruence. auto.
Qed.

Lemma mount_steady stored now : steady (mount stored now).
Proof.
  unfold mount, loadAndCleanTranscripts, steady, synced.
  destruct stored as [ts|]; cbn [localStorage].
  - destruct (Nat.eqb _ _); cbn; repeat split; try reflexivity; discriminate.
  - cbn; repeat split; try reflexivity; discriminate.
Qed.

(** Reads cells through the writes of a handler, one write at a time. *)
Ltac reads :=
  cbn [setStatus setTranscript setError setInterimTranscript
       setSelectedLanguage setStoredTranscripts setRecordingStartTime
       set_transcriptRef setItem recognition_call installHandlers
       status transcript errorState interimTranscript selectedLanguage
       storedTranscripts recordingStartTime state bound transcriptRef
       recognitionRef recognitionLang localStorage calls].

(** Splits on the tests of a handler and reads the cells it wrote. *)
Ltac handler_cases :=
  repeat match goal with
    | |- context [if ?b then _ else _] => destruct b eqn:?
    end;
  reads.

Lemma status_eqb_recording (r : RecordingStatus) :
  RecordingStatus_eqb r recording = true <-> r = recording.
Proof. apply RecordingStatus_eqb_eq. Qed.

Lemma Limits_stop_keeps_steady (now : Z) (c : Render) (w : World) :
  steady w -> steady (render (Limits.handleStopRecording now c w)).
Proof.
  intros H. pose proof H as (_ & Hrr & _).
  apply (steady_keep w); [exact H|..];
    unfold Limits.handleStopRecording; rewrite Hrr;
    handler_cases; try reflexivity; try assumption; try discriminate.
Qed.


Lemma setter_keeps_steady (w w' : World) :
  steady w ->
  bound w' = bound w ->
  recognitionRef w' = recognitionRef w ->
  recognitionLang w' = recognitionLang w ->
  status (state w') = status (state w) ->
  selectedLanguage (state w') = selectedLanguage (state w) ->
  steady (render w').
Proof.
  intros H Hb Hr Hl Hs Hla. pose proof H as (_ & Hrr & _ & Hnt & _).
  apply (steady_keep w); try assumption; try congruence.
  intros Hrec. split; congruence.
Qed.

Lemma settled_keeps_steady (w w' : World) (r : RecordingStatus) :
  steady w ->
  bound w' = bound w ->
  recognitionRef w' = recognitionRef w ->
  recognitionLang w' = recognitionLang w ->
  status (state w') = r ->
  r <> recording -> r <> transcribing ->
  steady (render w').
Proof.
  intros H Hb Hr Hl Hs Hnr Hnt'. pose proof H as (_ & Hrr & _).
  apply (steady_keep w); try assumption; try congruence.
Qed.

Lemma onend_keeps_steady (w : World) :
  steady w -> steady (fromRecognition onend w).
Proof.
  intros H. pose proof H as ([Hs _] & _ & _ & Hnt & _).
  unfold fromRecognition, onend. rewrite Hs.
  destruct (status (state w)) eqn:E; cbn [RecordingStatus_eqb negb].
  - apply (settled_keeps_steady w _ complete); try assumption;
      try reflexivity; discriminate.
  - apply (setter_keeps_steady w); try assumption; reflexivity.
  - congruence.
  - apply (settled_keeps_steady w _ complete); try assumption;
      try reflexivity; discriminate.
  - apply (setter_keeps_steady w); try assumption; reflexivity.
Qed.

Lemma loadAndClean_keeps_steady (now : Z) (w : World) :
  steady w -> steady (render (loadAndCleanTranscripts now w)).
Proof.
  intros H. apply (setter_keeps_steady w); try assumption;
    unfold loadAndCleanTranscripts; destruct (localStorage w);
    handler_cases; reflexivity.
Qed.

(** Every event of the revision with limits keeps the component
    steady. *)
Lemma Limits_step_steady (w : World) (e : Event) :
  steady w -> steady (Limits.step w e).
Proof.
  intros H. pose proof H as ([Hs Hl] & Hrr & Hrl & Hnt & Hbt).
  destruct e as [now thr|now lang| |now results|code| |now];
    cbn [Limits.step]; unfold fromPage, fromRecognition.
  - (* the microphone button *)
    destruct (RecordingStatus_eqb (status (state w)) recording) eqn:E.
    + apply Limits_stop_keeps_steady, H.
    + assert (Hnr : status (state w) <> recording).
      { intros Hr. apply status_eqb_recording in Hr. congruence. }
      apply (steady_start w); try assumption;
        unfold Limits.handleStartRecording; handler_cases;
        try reflexivity; try assumption; discriminate.
  - (* the language selector *)
    unfold Limits.handleLanguageChange.
    destruct (RecordingStatus_eqb (status (state w)) recording) eqn:E.
    + apply (steady_keep w); [exact H|..];
        unfold Limits.handleStopRecording;
        cbn [recognitionRef setSelectedLanguage]; rewrite Hrr;
        handler_cases; try reflexivity; try assumption; try discriminate.
    + assert (Hnr : status (state w) <> recording).
      { intros Hr. apply status_eqb_recording in Hr. congruence. }
      apply (steady_keep w); try assumption; try reflexivity.
      cbn. intros Hr. congruence.
  - (* the error banner *)
    apply (settled_keeps_steady w _ idle); try assumption;
      try reflexivity; discriminate.
  - (* a result *)
    unfold Limits.onresult. rewrite scanResults_join.
    destruct (MAX_WORD_COUNT <? _).
    + apply (steady_keep w); [exact H|..];
        unfold Limits.handleStopRecording; rewrite Hrr;
        handler_cases; try reflexivity; try assumption; try discriminate.
    + apply (setter_keeps_steady w); try assumption; reflexivity.
  - (* a recognition error *)
    apply (settled_keeps_steady w _ error); try assumption;
      try reflexivity; discriminate.
  - apply onend_keeps_steady, H.
  - apply loadAndClean_keeps_steady, H.
Qed.




(** *** The revision with limits: [transcriptRef] and the timer *)

Lemma Limits_step_mirrors (w : World) (e : Event) :
  transcriptRef w = transcript (state w) ->
  transcriptRef (Limits.step w e) = transcript (state (Limits.step w e)).
Proof.
  intros H.
  destruct e as [now thr|now lang| |now results|code| |now];
    cbn [Limits.step]; unfold fromPage, fromRecognition;
    rewrite render_state, render_transcriptRef.
  - unfold Limits.handleStopRecording, Limits.handleStartRecording.
    handler_cases; try reflexivity; exact H.
  - unfold Limits.handleLanguageChange, Limits.handleStopRecording.
    handler_cases; exact H.
  - exact H.
  - unfold Limits.onresult. rewrite scanResults_join.
    unfold Limits.handleStopRecording.
    handler_cases; try reflexivity; exact H.
  - exact H.
  - unfold onend. handler_cases; exact H.
  - unfold loadAndCleanTranscripts. destruct (localStorage w);
      handler_cases; exact H.
Qed.

(** While the status stays [recording] across an event, the start time
    stays. *)
Lemma Limits_step_start_time (w : World) (e : Event) :
  status (state w) = recording ->
  status (state (Limits.step w e)) = recording ->
  recordingStartTime (state (Limits.step w e))
  = recordingStartTime (state w).
Proof.
  intros Hr.
  destruct e as [now thr|now lang| |now results|code| |now];
    cbn [Limits.step]; unfold fromPage, fromRecognition;
    rewrite render_state.
  - rewrite Hr. cbn [RecordingStatus_eqb].
    unfold Limits.handleStopRecording. handler_cases;
      try discriminate; reflexivity.
  - unfold Limits.handleLanguageChange. rewrite Hr.
    cbn [RecordingStatus_eqb].
    unfold Limits.handleStopRecording. handler_cases;
      try discriminate; reflexivity.
  - discriminate.
  - unfold Limits.onresult. rewrite scanResults_join.
    unfold Limits.handleStopRecording. handler_cases;
      try discriminate; reflexivity.
  - discriminate.
  - unfold onend. handler_cases; try discriminate; reflexivity.
  - unfold loadAndCleanTranscripts. destruct (localStorage w);
      handler_cases; reflexivity.
Qed.

(** An event that makes the status [recording] leaves the final text
    empty. *)
Lemma Limits_step_enters_recording (w : World) (e : Event) :
  steady w ->
  status (state w) <> recording ->
  status (state (Limits.step w e)) = recording ->
  transcript (state (Limits.step w e)) = [].
Proof.
  intros ([Hs _] & _) Hnr.
  assert (E : RecordingStatus_eqb (status (state w)) recording = false).
  { destruct (RecordingStatus_eqb _ _) eqn:E; [|reflexivity].
    apply status_eqb_recording in E. congruence. }
  destruct e as [now thr|now lang| |now results|code| |now];
    cbn [Limits.step]; unfold fromPage, fromRecognition;
    rewrite render_state.
  - rewrite E. unfold Limits.handleStartRecording.
    handler_cases; try discriminate; reflexivity.
  - unfold Limits.handleLanguageChange. rewrite E. reads. congruence.
  - discriminate.
  - unfold Limits.onresult. rewrite scanResults_join.
    unfold Limits.handleStopRecording. handler_cases;
      try discriminate; congruence.
  - discriminate.
  - unfold onend. rewrite Hs, E.
    handler_cases; try discriminate; congruence.
  - unfold loadAndCleanTranscripts. destruct (localStorage w);
      handler_cases; congruence.
Qed.


Lemma option_Z_eqb_eq (a b : option Z) :
  Timer.option_Z_eqb a b = true <-> a = b.
Proof.
  destruct a as [x|], b as [y|]; cbn; try (split; congruence).
  rewrite Z.eqb_eq. split; congruence.
Qed.

(** After the timer effect has had its turn, the render it last ran in
    has the current status and start time; it is the current render
    when one of the two has changed. *)
Lemma settle_cases (last : Render) (w : World) :
  Timer.world (Timer.settle last w) = w
  /\ ((status last = status (state w)
       /\ recordingStartTime last = recordingStartTime (state w)
       /\ Timer.timerRender (Timer.settle last w) = last)
      \/ ((status last <> status (state w)
           \/ recordingStartTime last <> recordingStartTime (state w))
          /\ Timer.timerRender (Timer.settle last w) = state w)).
Proof.
  unfold Timer.settle.
  destruct (RecordingStatus_eqb _ _ && Timer.option_Z_eqb _ _) eqn:E.
  - apply andb_true_iff in E as [Es Et].
    apply RecordingStatus_eqb_eq in Es. apply option_Z_eqb_eq in Et.
    split; [reflexivity|]. left. auto.
  - split; [reflexivity|]. right. split; [|reflexivity].
    apply andb_false_iff in E as [E|E].
    + left. intros Hc. symmetry in Hc.
      apply RecordingStatus_eqb_eq in Hc. congruence.
    + right. intros Hc. symmetry in Hc.
      apply option_Z_eqb_eq in Hc. congruence.
Qed.

Lemma settle_steady (t : Timer.Timed) (w' : World) :
  timerSteady t ->
  steady w' ->
  transcriptRef w' = transcript (state w') ->
  (status (state (Timer.world t)) = recording ->
   status (state w') = recording ->
   recordingStartTime (state w')
   = recordingStartTime (state (Timer.world t))) ->
  (status (state (Timer.world t)) <> recording ->
   status (state w') = recording -> transcript (state w') = []) ->
  timerSteady (Timer.settle (Timer.timerRender t) w').
Proof.
  intros (Hst & Hm & Hts & Htt & Htx) Hst' Hm' Hkeep Henter.
  destruct (settle_cases (Timer.timerRender t) w')
    as [Hw [(Hs & Ht & Hl)|(Hd & Hl)]];
    unfold timerSteady; rewrite Hw, Hl.
  - split; [exact Hst'|]. split; [exact Hm'|].
    split; [exact Hs|]. split; [exact Ht|].
    intros Hr. apply Htx. congruence.
  - split; [exact Hst'|]. split; [exact Hm'|].
    split; [reflexivity|]. split; [reflexivity|].
    intros Hr.
    destruct (RecordingStatus_eqb (status (state (Timer.world t))) recording)
      eqn:E.
    + apply status_eqb_recording in E. exfalso.
      specialize (Hkeep E Hr). destruct Hd as [Hd|Hd]; congruence.
    + apply Henter; [|exact Hr]. intros Hc.
      apply status_eqb_recording in Hc. congruence.
Qed.

(** The interval's callback stops the recording or does nothing. *)
Lemma onInterval_cases (now : Z) (c : Render) (w : World) :
  Timer.onInterval now c w = w
  \/ (exists startTime,
         Timer.interval c = Some startTime
         /\ MAX_RECORDING_HOURS * (1000 * 60 * 60) <= now - startTime
         /\ Timer.onInterval now c w
            = setError
                (Some (mkErrorState (js "Maximum Recording Duration Reached")
                         (Some (js "Recording stopped after 6 hours."))))
                (Limits.handleStopRecording now c w)).
Proof.
  unfold Timer.onInterval.
  destruct (Timer.interval c) as [t0|]; [|left; reflexivity].
  destruct (_ <=? _) eqn:E; [|left; reflexivity].
  right. exists t0. apply Z.leb_le in E. repeat split. exact E.
Qed.

Lemma Timer_step_steady (t : Timer.Timed) (e : Timer.TimedEvent) :
  timerSteady t -> timerSteady (Timer.step t e).
Proof.
  intros H. pose proof H as (Hst & Hm & Hts & Htt & Htx).
  destruct e as [e|now]; cbn [Timer.step].
  - apply settle_steady; try assumption.
    + apply Limits_step_steady, Hst.
    + apply Limits_step_mirrors, Hm.
    + apply Limits_step_start_time.
    + apply Limits_step_enters_recording, Hst.
  - pose proof Hst as (Hsy & Hrr & _).
    destruct (onInterval_cases now (Timer.timerRender t) (Timer.world t))
      as [Hsame|(t0 & _ & _ & Hstop)].
    + rewrite Hsame, (render_idle _ Hsy).
      apply settle_steady; try assumption; try reflexivity.
      intros Hn Hr. congruence.
    + rewrite Hstop.
      assert (Hc : status (state
                     (render
                        (setError
                           (Some (mkErrorState
                                    (js "Maximum Recording Duration Reached")
                                    (Some (js "Recording stopped after 6 hours."))))
                           (Limits.handleStopRecording now
                              (Timer.timerRender t) (Timer.world t)))))
                   = complete).
      { rewrite render_state. unfold Limits.handleStopRecording.
        rewrite Hrr. handler_cases; reflexivity. }
      apply settle_steady; try assumption.
      * apply (steady_keep (Timer.world t)); [exact Hst|..];
          unfold Limits.handleStopRecording; rewrite Hrr;
          handler_cases; try reflexivity; try assumption; discriminate.
      * rewrite render_state, render_transcriptRef.
        unfold Limits.handleStopRecording. rewrite Hrr.
        handler_cases; exact Hm.
      * intros _ Hr. rewrite Hc in Hr. discriminate.
      * intros _ Hr. rewrite Hc in Hr. discriminate.
Qed.

Lemma Timer_mount_steady stored now : timerSteady (Timer.mount stored now).
Proof.
  unfold timerSteady, Timer.mount. cbn [Timer.world Timer.timerRender].
  split; [apply mount_steady|].
  unfold mount, loadAndCleanTranscripts.
  destruct stored as [ts|]; cbn [localStorage].
  - destruct (Nat.eqb _ _); cbn; repeat split; discriminate.
  - cbn; repeat split; discriminate.
Qed.

Lemma Timer_run_steady (es : list Timer.TimedEvent) (t : Timer.Timed) :
  timerSteady t -> timerSteady (Timer.run t es).
Proof.
  unfold Timer.run. revert t.
  induction es as [|e es IH]; intros t Ht; cbn [fold_left]; [exact Ht|].
  apply IH, Timer_step_steady, Ht.
Qed.



(** A stop that reads a render with an empty final text stores
    nothing. *)
Lemma Limits_stop_of_empty_render (now : Z) (c : Render) (w : World) :
  recognitionRef w = true ->
  transcript c = [] ->
  Limits.handleStopRecording now c w
  = setRecordingStartTime None
      (setStatus complete (recognition_call call_stop w)).
Proof.
  intros Hrr Hc. unfold Limits.handleStopRecording. rewrite Hrr, Hc.
  reflexivity.
Qed.

(** ** The limits of the revision with limits *)

(** X7.  The duration limit, for an interval set by a render that was
    recording since [startTime]: the callback that runs six hours or more
    after [startTime] stops the recording once, sets the status
    [complete], clears the start time and raises the
    "Maximum Recording Duration Reached" error, leaving the final text;
    a callback that runs earlier changes nothing. *)
Theorem onInterval_threshold (c : Render) (w : World)
  (startTime late early : Z) :
  Timer.interval c = Some startTime ->
  recognitionRef w = true ->
  6 * 60 * 60 * 1000 <= late - startTime ->
  early - startTime < 6 * 60 * 60 * 1000 ->
  let stopped := Timer.onInterval late c w in
  Timer.onInterval early c w = w
  /\ status (state stopped) = complete
  /\ calls stopped = calls w ++ [call_stop]
  /\ errorState (state stopped)
     = Some (mkErrorState (js "Maximum Recording Duration Reached")
               (Some (js "Recording stopped after 6 hours.")))
  /\ recordingStartTime (state stopped) = None
  /\ transcript (state stopped) = transcript (state w).
Proof.
  intros Hi Hrr Hlate Hearly stopped. subst stopped.
  unfold Timer.onInterval. rewrite Hi. cbv zeta.
  unfold MAX_RECORDING_HOURS.
  replace (6 * (1000 * 60 * 60) <=? early - startTime) with false
    by (symmetry; apply Z.leb_gt; lia).
  replace (6 * (1000 * 60 * 60) <=? late - startTime) with true
    by (symmetry; apply Z.leb_le; lia).
  split; [reflexivity|].
  unfold Limits.handleStopRecording. rewrite Hrr.
  handler_cases; repeat split; reflexivity.
Qed.

Lemma onInterval_threshold_witness :
  let w :=
    Limits.run (mount None 0)
      [ClickMic 1000 false; Result 2000 [mkSlot true (js "hi")]] in
  Timer.onInterval (1000 + 21599999) (bound w) w = w
  /\ status (state (Timer.onInterval (1000 + 21600000) (bound w) w))
     = complete.
Proof.
  intros w.
  destruct (onInterval_threshold (bound w) w 1000
              (1000 + 21600000) (1000 + 21599999))
    as (H1 & H2 & _).
  - reflexivity.
  - reflexivity.
  - lia.
  - lia.
  - exact (conj H1 H2).
Defined.

(** X8.  In the revision with limits, whatever has reached the component
    since it was mounted: when it is recording and the timer fires six
    hours or more after the start, the recording is stopped with the
    duration error and the final text stays on the page, but nothing is
    stored: the stored transcripts and the storage are as before.  The
    stop handler the timer calls is the one of the render that followed
    the start, whose final text is empty. *)
Theorem Timer_stop_stores_nothing (stored : option (list StoredTranscript))
  (now0 : Z) (es : list Timer.TimedEvent) (startTime now : Z) :
  let t := Timer.run (Timer.mount stored now0) es in
  status (state (Timer.world t)) = recording ->
  recordingStartTime (state (Timer.world t)) = Some startTime ->
  startTime <> 0 ->
  6 * 60 * 60 * 1000 <= now - startTime ->
  let t' := Timer.step t (Timer.Tick now) in
  status (state (Timer.world t')) = complete
  /\ errorState (state (Timer.world t'))
     = Some (mkErrorState (js "Maximum Recording Duration Reached")
               (Some (js "Recording stopped after 6 hours.")))
  /\ transcript (state (Timer.world t'))
     = transcript (state (Timer.world t))
  /\ storedTranscripts (state (Timer.world t'))
     = storedTranscripts (state (Timer.world t))
  /\ localStorage (Timer.world t') = localStorage (Timer.world t).
Proof.
  intros t Hrec Hstart Hnz Hlate t'.
  assert (Hinv : timerSteady t)
    by (apply Timer_run_steady, Timer_mount_steady).
  subst t'. clearbody t.
  destruct Hinv as ((_ & Hrr & _) & _ & Hts & Htt & Htx).
  specialize (Htx Hrec).
  assert (Hi : Timer.interval (Timer.timerRender t) = Some startTime).
  { unfold Timer.interval. rewrite Htt, Hstart, Hts, Hrec.
    replace (startTime =? 0) with false
      by (symmetry; apply Z.eqb_neq; exact Hnz).
    reflexivity. }
  cbn [Timer.step].
  destruct (settle_cases (Timer.timerRender t)
              (render (Timer.onInterval now (Timer.timerRender t)
                         (Timer.world t)))) as [Hw _].
  rewrite Hw, render_state, render_localStorage.
  unfold Timer.onInterval. rewrite Hi. cbv zeta.
  unfold MAX_RECORDING_HOURS.
  replace (6 * (1000 * 60 * 60) <=? now - startTime) with true
    by (symmetry; apply Z.leb_le; lia).
  rewrite (Limits_stop_of_empty_render _ _ _ Hrr Htx).
  repeat split; reflexivity.
Qed.

Lemma Timer_stop_stores_nothing_witness :
  let t :=
    Timer.run (Timer.mount None 0)
      [Timer.Other (ClickMic 1000 false);
       Timer.Other (Result 2000 [mkSlot true (js "hi")])] in
  let t' := Timer.step t (Timer.Tick (1000 + 21600000)) in
  transcript (state (Timer.world t')) = js "hi "
  /\ status (state (Timer.world t')) = complete
  /\ localStorage (Timer.world t') = None.
Proof.
  intros t t'.
  destruct (Timer_stop_stores_nothing None 0
              [Timer.Other (ClickMic 1000 false);
               Timer.Other (Result 2000 [mkSlot true (js "hi")])]
              1000 (1000 + 21600000))
    as (Hs & _ & Ht & _ & Hls).
  - reflexivity.
  - reflexivity.
  - discriminate.
  - lia.
  - exact (conj Ht (conj Hs Hls)).
Defined.



(** ** The component after any events *)





Lemma end_while_recording (w : World) :
  synced w ->
  status (state w) = recording ->
  calls (fromRecognition onend w) = calls w ++ [call_start]
  /\ status (state (fromRecognition onend w)) = recording.
Proof.
  intros Hsync Hr. pose proof Hsync as [Hs Hl].
  unfold fromRecognition, onend. rewrite Hs, Hr.
  cbn [RecordingStatus_eqb].
  rewrite render_idle by (split; cbn; congruence).
  cbn. auto.
Qed.

(** X14.  A start is stopped by the next render and restarted by the end
    callback.  From a status other than [recording], a click on the
    microphone calls [recognition.start()]; the render that follows
    replaces the handlers and its cleanup calls [recognition.stop()];
    the end callback that this brings sees the status [recording] and
    calls [recognition.start()] again.  The status is [recording]
    throughout.  Both revisions. *)
Theorem start_is_stopped_then_restarted (w : World) (now : Z) :
  synced w ->
  status (state w) <> recording ->
  let b1 := Base.step w (ClickMic now false) in
  let b2 := Base.step b1 RecognitionEnd in
  let l1 := Limits.step w (ClickMic now false) in
  let l2 := Limits.step l1 RecognitionEnd in
  (calls b1 = calls w ++ [call_start; call_stop]
   /\ status (state b1) = recording
   /\ calls b2 = calls b1 ++ [call_start]
   /\ status (state b2) = recording)
  /\ (calls l1 = calls w ++ [call_start; call_stop]
      /\ status (state l1) = recording
      /\ calls l2 = calls l1 ++ [call_start]
      /\ status (state l2) = recording).
Proof.
  intros [Hs Hl] Hnr b1 b2 l1 l2.
  assert (E : RecordingStatus_eqb (status (state w)) recording = false).
  { destruct (RecordingStatus_eqb _ _) eqn:E; [|reflexivity].
    apply status_eqb_recording in E. congruence. }
  assert (E' : RecordingStatus_eqb recording (status (bound w)) = false).
  { rewrite Hs. clear E. destruct (status (state w)); try reflexivity.
    congruence. }
  assert (Hb1 : calls b1 = calls w ++ [call_start; call_stop]
                /\ status (state b1) = recording).
  { subst b1. cbn [Base.step]. unfold fromPage. rewrite E.
    unfold render, Base.handleStartRecording. reads. rewrite E'.
    cbn [andb]. reads. rewrite <- app_assoc. split; reflexivity. }
  assert (Hl1 : calls l1 = calls w ++ [call_start; call_stop]
                /\ status (state l1) = recording).
  { subst l1. cbn [Limits.step]. unfold fromPage. rewrite E.
    unfold render, Limits.handleStartRecording. reads. rewrite E'.
    cbn [andb]. reads. rewrite <- app_assoc. split; reflexivity. }
  assert (Hsb : synced b1) by apply Base_step_synced.
  assert (Hsl : synced l1) by apply Limits_step_synced.
  destruct Hb1 as [Hcb Hrb]. destruct Hl1 as [Hcl Hrl].
  split.
  - split; [exact Hcb|]. split; [exact Hrb|].
    exact (end_while_recording b1 Hsb Hrb).
  - split; [exact Hcl|]. split; [exact Hrl|].
    exact (end_while_recording l1 Hsl Hrl).
Qed.

Lemma start_is_stopped_then_restarted_witness :
  let w := mount None 0 in
  calls (Limits.step w (ClickMic 1 false)) = [call_start; call_stop]
  /\ calls (Limits.step (Limits.step w (ClickMic 1 false)) RecognitionEnd)
     = [call_start; call_stop; call_start].
Proof.
  intros w.
  destruct (start_is_stopped_then_restarted w 1)
    as (_ & (H1 & _ & H2 & _)).
  - apply mount_synced.
  - discriminate.
  - exact (conj H1 H2).
Defined.

(** *** Stored transcripts are never blank *)














(** ** Starting and storing *)

(** X15.  A start whose [recognition.start()] throws, from a status other
    than [recording]: the status becomes [error] with the
    "Recognition Start Error" message, both texts are cleared, nothing is
    stored, and the only call the recognizer sees is the [stop] of the
    render that follows (none when the status was [error] already).  In
    the revision with limits [transcriptRef] is cleared and the start
    time stays set to the time of the click. *)
Theorem failed_start (w : World) (now : Z) :
  synced w ->
  status (state w) <> recording ->
  let b := Base.step w (ClickMic now true) in
  let l := Limits.step w (ClickMic now true) in
  let failure :=
    Some (mkErrorState (js "Recognition Start Error")
            (Some (js "Failed to start speech recognition. Please try again."))) in
  let seen :=
    calls w ++ (if RecordingStatus_eqb (status (state w)) error
                then [] else [call_stop]) in
  (status (state b) = error /\ errorState (state b) = failure
   /\ transcript (state b) = [] /\ interimTranscript (state b) = []
   /\ storedTranscripts (state b) = storedTranscripts (state w)
   /\ localStorage b = localStorage w
   /\ calls b = seen)
  /\ (status (state l) = error /\ errorState (state l) = failure
      /\ transcript (state l) = [] /\ interimTranscript (state l) = []
      /\ storedTranscripts (state l) = storedTranscripts (state w)
      /\ localStorage l = localStorage w
      /\ calls l = seen
      /\ transcriptRef l = []
      /\ recordingStartTime (state l) = Some now).
Proof.
  intros [Hs Hl] Hnr b l failure seen. subst b l failure seen.
  destruct w as [[s tx er it la st rt] [bs btx ber bit bla bst brt]
                   tr rr rl ls cs].
  cbn [status selectedLanguage state bound] in Hs, Hl, Hnr. subst bs bla.
  unfold Base.step, Limits.step, fromPage, render,
    Base.handleStartRecording, Limits.handleStartRecording.
  reads.
  destruct s, la; try congruence; cbn [RecordingStatus_eqb Language_eqb andb];
    reads; rewrite ?app_nil_r; repeat split; reflexivity.
Qed.

Lemma failed_start_witness :
  let l := Limits.step (mount None 0) (ClickMic 7 true) in
  status (state l) = error
  /\ calls l = [call_stop]
  /\ recordingStartTime (state l) = Some 7.
Proof.
  intros l.
  destruct (failed_start (mount None 0) 7)
    as (_ & (H1 & _ & _ & _ & _ & _ & H2 & _ & H3)).
  - apply mount_synced.
  - discriminate.
  - exact (conj H1 (conj H2 H3)).
Defined.

(** X16.  What each event does to the stored transcripts in
    [src/App.tsx], in the component and in the storage.  A click on the
    microphone or a language change, while the render is recording and
    its final text is not blank, appends exactly one record holding that
    final text, the language of that render and the time of the event,
    and writes the new list to the storage; otherwise it leaves both as
    they are.  The hourly clean-up puts the records of the storage that
    are not expired in both, and leaves both while the key is absent.
    Every other event, a result, an error, an end or a dismissal,
    leaves both as they are. *)
Theorem Base_store_changes (w : World) (e : Event) :
  recognitionRef w = true ->
  let w' := Base.step w e in
  let unchanged :=
    storedTranscripts (state w') = storedTranscripts (state w)
    /\ localStorage w' = localStorage w in
  match e with
  | ClickMic now _ | ChangeLanguage now _ =>
      if RecordingStatus_eqb (status (state w)) recording
         && truthy (trim (transcript (state w)))
      then
        let added :=
          storedTranscripts (state w)
            ++ [mkStoredTranscript (toString now) (transcript (state w))
                  (selectedLanguage (state w)) now None] in
        storedTranscripts (state w') = added
        /\ localStorage w' = Some added
      else unchanged
  | HourlyClean now =>
      match localStorage w with
      | Some transcripts =>
          let valid :=
            filter (fun t => now - timestamp t <? ONE_DAY_MS) transcripts in
          storedTranscripts (state w') = valid
          /\ localStorage w' = Some valid
      | None => unchanged
      end
  | DismissError | Result _ _ | RecognitionError _ | RecognitionEnd =>
      unchanged
  end.
Proof.
  intros Hrr w' unchanged. subst w' unchanged.
  destruct e as [now thr|now lang| |now results|code| |now];
    cbn [Base.step]; unfold fromPage, fromRecognition;
    rewrite render_state, render_localStorage.
  - destruct (RecordingStatus_eqb _ _) eqn:E; cbn [andb].
    + unfold Base.handleStopRecording. rewrite Hrr.
      destruct (truthy _) eqn:Et; reads; split; reflexivity.
    + unfold Base.handleStartRecording. handler_cases; split; reflexivity.
  - unfold Base.handleLanguageChange.
    destruct (RecordingStatus_eqb _ _) eqn:E; cbn [andb].
    + unfold Base.handleStopRecording.
      cbn [recognitionRef setSelectedLanguage]. rewrite Hrr.
      destruct (truthy _) eqn:Et; reads; split; reflexivity.
    + split; reflexivity.
  - split; reflexivity.
  - unfold Base.onresult. rewrite scanResults_join. split; reflexivity.
  - split; reflexivity.
  - unfold onend. handler_cases; split; reflexivity.
  - destruct (localStorage w) as [ts|] eqn:E.
    + apply (loadAndCleanTranscripts_keeps now w ts E).
    + unfold loadAndCleanTranscripts. rewrite E. split; [reflexivity|exact E].
Qed.

Lemma Base_store_changes_witness :
  let w :=
    Base.run (mount None 0)
      [ClickMic 1 false; Result 2 [mkSlot true (js "note")]] in
  storedTranscripts (state (Base.step w (ClickMic 3 false)))
  = [mkStoredTranscript (js "3") (js "note ") en_US 3 None]
  /\ localStorage (Base.step w (ClickMic 3 false))
     = Some [mkStoredTranscript (js "3") (js "note ") en_US 3 None]
  /\ storedTranscripts (state (Base.step w (RecognitionError (js "network"))))
     = storedTranscripts (state w).
Proof.
  intros w.
  pose proof (Base_store_changes w (ClickMic 3 false) eq_refl) as H.
  pose proof (Base_store_changes w (RecognitionError (js "network")) eq_refl)
    as [H' _].
  cbv zeta in H.
  change (RecordingStatus_eqb (status (state w)) recording
          && truthy (trim (transcript (state w)))) with true in H.
  destruct H as [H1 H2].
  exact (conj H1 (conj H2 H')).
Defined.
